(** * Risk-managed position engine of Goat_2: a shallow embedding

    The development follows the two scripts that carry the engine:

    - [Real_trading.py]: [TradingConfig], [RiskManager], [open_position],
      [PriceAnalyzer], [handle_socket_message] (module [RealTrading]);
    - [Real_Trading_Websocket.py]: the reconnecting price feed
      ([start_symbol_ticker_socket], [reconnect_websocket]; module
      [RealTradingWebsocket]).

    The script keeps its state in module globals and mutates it in place, and
    nearly every function wraps its body in a catch-all [try]: the embedding
    is a state-and-exception monad over the globals ([py]), in which the state
    reached before an exception is kept.  The exchange is a record of answers
    ([Exchange]), one per message handled, and every request sent is logged
    in the state ([sent]), which makes the order of the requests observable.
    Logging, printing and sounds are not modelled.

    Number model.  A finite Python float is an exact rational ([Q]); rounding
    and overflow of binary64 are not modelled, and neither is the sign of
    zero.  The values a float computation can fall into from finite inputs are
    modelled: [NaN] and the infinities of numpy arithmetic ([npfloat]), the
    [ZeroDivisionError] of Python's own float division, and the difference
    between the two, which Python decides by the dynamic type of the operands
    ([pynum]).  Logarithm, square root and standard deviation are the real
    ones ([R]).

    After the two modules come concrete inputs ([Scenario]), the views of
    the state that the statements use and the volatility in the words of the
    specification ([Views]), and the properties ([TradingFacts],
    [FeedFacts], [EngineFacts], [SocketFacts]). *)

From Stdlib Require Import QArith Qabs Qround Lqa Lra Reals Qreals.
From stdpp Require Import gmap strings list.

Local Open Scope Q_scope.

(** ** Python values *)

(** The exceptions the modelled code can raise. *)
Inductive exn :=
| ZeroDivisionError
| KeyError
| IndexError
| TypeError
| ValueError
| OverflowError
| AttributeError (attr : string)
| BinanceAPIException.

(** Result of a computation that may raise. *)
Inductive pyres (A : Type) :=
| Ok (a : A)
| Raise (e : exn).
Arguments Ok {A} a.
Arguments Raise {A} e.

#[global] Instance pyres_ret : MRet pyres := fun A a => Ok a.
#[global] Instance pyres_bind : MBind pyres := fun A B f m =>
  match m with Ok a => f a | Raise e => Raise e end.

(** A numpy float64 scalar: a finite value, an infinity or NaN. *)
Inductive npfloat :=
| Fin (q : Q)
| PInf
| NInf
| NaN.

Definition Qsgn (q : Q) : comparison := Qcompare q 0.

Definition np_neg (a : npfloat) : npfloat :=
  match a with
  | Fin x => Fin (- x)
  | PInf => NInf
  | NInf => PInf
  | NaN => NaN
  end.

Definition np_add (a b : npfloat) : npfloat :=
  match a, b with
  | NaN, _ | _, NaN => NaN
  | Fin x, Fin y => Fin (x + y)
  | PInf, NInf | NInf, PInf => NaN
  | PInf, _ | _, PInf => PInf
  | NInf, _ | _, NInf => NInf
  end.

Definition np_sub (a b : npfloat) : npfloat := np_add a (np_neg b).

(** An infinity of sign [s] (as a comparison with zero); [Eq] is the
    invalid operation. *)
Definition np_inf (s : comparison) : npfloat :=
  match s with Gt => PInf | Lt => NInf | Eq => NaN end.

Definition np_sign (a : npfloat) : option comparison :=
  match a with
  | Fin x => Some (Qsgn x)
  | PInf => Some Gt
  | NInf => Some Lt
  | NaN => None
  end.

Definition sgn_mul (s t : comparison) : comparison :=
  match s, t with
  | Eq, _ | _, Eq => Eq
  | Gt, u | u, Gt => u
  | Lt, Lt => Gt
  end.

Definition np_mul (a b : npfloat) : npfloat :=
  match a, b with
  | NaN, _ | _, NaN => NaN
  | Fin x, Fin y => Fin (x * y)
  | _, _ =>
      match np_sign a, np_sign b with
      | Some s, Some t => np_inf (sgn_mul s t)
      | _, _ => NaN
      end
  end.

(** numpy division: a zero divisor gives an infinity (or NaN for 0/0) and a
    warning, never an exception. *)
Definition np_div (a b : npfloat) : npfloat :=
  match a, b with
  | NaN, _ | _, NaN => NaN
  | Fin x, Fin y => if Qeq_bool y 0 then np_inf (Qsgn x) else Fin (x / y)
  | Fin _, _ => Fin 0
  | _, Fin y =>
      match np_sign a with
      | Some s => np_inf (sgn_mul s (if Qeq_bool y 0 then Gt else Qsgn y))
      | None => NaN
      end
  | _, _ => NaN
  end.

Definition np_abs (a : npfloat) : npfloat :=
  match a with
  | Fin x => Fin (Qabs x)
  | PInf | NInf => PInf
  | NaN => NaN
  end.

(** Comparisons: every comparison with NaN is false. *)
Definition Qltb (x y : Q) : bool :=
  match Qcompare x y with Lt => true | _ => false end.

Definition np_ltb (a b : npfloat) : bool :=
  match a, b with
  | NaN, _ | _, NaN => false
  | Fin x, Fin y => Qltb x y
  | NInf, NInf | PInf, _ | _, NInf => false
  | NInf, _ | _, PInf => true
  end.

Definition np_leb (a b : npfloat) : bool :=
  match a, b with
  | NaN, _ | _, NaN => false
  | Fin x, Fin y => Qle_bool x y
  | NInf, _ | _, PInf => true
  | PInf, _ | _, NInf => false
  end.

(** A Python number by its dynamic type: a built-in float ([PyF], finite) or
    a numpy scalar ([NpF]).  An operation with a numpy operand is numpy's. *)
Inductive pynum :=
| PyF (q : Q)
| NpF (v : npfloat).

Definition value (a : pynum) : npfloat :=
  match a with PyF q => Fin q | NpF v => v end.

Definition py_binop (fq : Q -> Q -> Q) (fn : npfloat -> npfloat -> npfloat)
    (a b : pynum) : pynum :=
  match a, b with
  | PyF x, PyF y => PyF (fq x y)
  | _, _ => NpF (fn (value a) (value b))
  end.

Definition py_add : pynum -> pynum -> pynum := py_binop Qplus np_add.
Definition py_sub : pynum -> pynum -> pynum := py_binop Qminus np_sub.
Definition py_mul : pynum -> pynum -> pynum := py_binop Qmult np_mul.

(** [a / b]: [ZeroDivisionError] only when both operands are built-in floats. *)
Definition py_div (a b : pynum) : pyres pynum :=
  match a, b with
  | PyF x, PyF y => if Qeq_bool y 0 then Raise ZeroDivisionError else Ok (PyF (x / y))
  | _, _ => Ok (NpF (np_div (value a) (value b)))
  end.

Definition py_abs (a : pynum) : pynum :=
  match a with PyF x => PyF (Qabs x) | NpF v => NpF (np_abs v) end.

Definition py_lt (a b : pynum) : bool := np_ltb (value a) (value b).
Definition py_le (a b : pynum) : bool := np_leb (value a) (value b).

(** Built-in [min(a, b)] and [max(a, b)]: the first argument unless the
    second is strictly smaller (larger). *)
Definition py_min (a b : pynum) : pynum := if py_lt b a then b else a.
Definition py_max (a b : pynum) : pynum := if py_lt a b then b else a.

(** Division of built-in floats, for the code that only sees those. *)
Definition Qdiv_py (x y : Q) : pyres Q :=
  if Qeq_bool y 0 then Raise ZeroDivisionError else Ok (x / y).

(** Built-in [round(x)] of a float: to the nearest integer, ties to even. *)
Definition round_half_even (x : Q) : Z :=
  let f := Qfloor x in
  match Qcompare (x - inject_Z f) (1 # 2) with
  | Lt => f
  | Gt => (f + 1)%Z
  | Eq => if Z.even f then f else (f + 1)%Z
  end.

Definition py_round (a : pynum) : pyres Z :=
  match a with
  | PyF x | NpF (Fin x) => Ok (round_half_even x)
  | NpF NaN => Raise ValueError
  | NpF _ => Raise OverflowError
  end.

Module RealTrading.

(** ** [TradingConfig] and the module constants *)

Definition STOP_LOSS_PERCENT : Q := 2.
Definition TAKE_PROFIT_PERCENT : Q := 2.

Definition MAX_POSITIONS : nat := 3.
Definition MIN_VOLUME_USD : Q := 1000000.
Definition MAX_SPREAD_PERCENT : Q := 1 # 10.
Definition LEVERAGE : Q := 3.
Definition MIN_STOP_LOSS : Q := 1 # 2.
Definition MAX_STOP_LOSS : Q := 5.
Definition ATR_MULTIPLIER : Q := 2.
Definition RISK_PER_TRADE : Q := 1 # 100.

Record level := { profit : Q; close_percent : Q }.

Definition PARTIAL_CLOSE_LEVELS : list level :=
  [ {| profit := 1; close_percent := 3 # 10 |};
    {| profit := 3 # 2; close_percent := 3 # 10 |};
    {| profit := 2; close_percent := 4 # 10 |} ].

(** [TradingConfig.calculate_position_size] *)
Definition calculate_position_size (balance entry_price stop_loss_price : pynum)
    : pyres pynum :=
  d ← py_div (py_abs (py_sub entry_price stop_loss_price)) entry_price;
  let price_diff_percent := py_mul d (PyF 100) in
  let risk_amount := py_mul balance (PyF RISK_PER_TRADE) in
  r ← py_div risk_amount price_diff_percent;
  mret (py_mul r (PyF LEVERAGE)).

(** [RiskManager.validate_position_size] *)
Definition validate_position_size (position_size balance : pynum) : pynum :=
  let max_size := py_mul balance (PyF (1 # 10)) in
  py_min position_size max_size.

(** ** Dynamic stops: [RiskManager.calculate_dynamic_stops] *)

(** One row of the OHLC frame; the computation reads these three columns. *)
Record bar := { high : Q; low : Q; close : Q }.

Definition Qmax2 (x y : Q) : Q := if Qltb x y then y else x.

(** Rows after the first: [close.shift()] is the previous row's close. *)
Fixpoint true_range_from (prev_close : Q) (df : list bar) : list Q :=
  match df with
  | [] => []
  | b :: rest =>
      Qmax2 (Qmax2 (high b - low b) (Qabs (high b - prev_close)))
            (Qabs (low b - prev_close))
        :: true_range_from (close b) rest
  end.

(** [np.max(ranges, axis=1)]: the shifted close of the first row is NaN and
    the row-wise maximum skips it, which leaves [high - low]. *)
Definition true_range (df : list bar) : list Q :=
  match df with
  | [] => []
  | b :: rest => (high b - low b) :: true_range_from (close b) rest
  end.

Definition Qsum (xs : list Q) : Q := foldr Qplus 0 xs.

(** The last [n] elements. *)
Definition last_n {A} (n : nat) (xs : list A) : list A :=
  drop (length xs - n) xs.

(** [s.rolling(w).mean().iloc[-1]] of a non-empty series without NaN: the
    mean of the last [w] values, NaN when there are fewer than [w]. *)
Definition rolling_mean_last (w : nat) (xs : list Q) : npfloat :=
  if (length xs <? w)%nat then NaN
  else Fin (Qsum (last_n w xs) / inject_Z (Z.of_nat w)).

(** The body of the [try]. An empty frame (what [get_futures_klines] returns
    on failure) has no ['high'] column. *)
Definition dynamic_stops_body (df : list bar) : pyres (pynum * pynum) :=
  match last df with
  | None => Raise KeyError
  | Some b =>
      let atr := NpF (rolling_mean_last 14 (true_range df)) in
      let current_price := PyF (close b) in
      let stop_loss_distance := py_mul atr (PyF ATR_MULTIPLIER) in
      d ← py_div stop_loss_distance current_price;
      let stop_loss_percent := py_mul d (PyF 100) in
      let stop_loss_percent :=
        py_max (py_min stop_loss_percent (PyF MAX_STOP_LOSS)) (PyF MIN_STOP_LOSS) in
      let take_profit_percent := py_mul stop_loss_percent (PyF (3 # 2)) in
      mret (stop_loss_percent, take_profit_percent)
  end.

Definition calculate_dynamic_stops (df : list bar) : pynum * pynum :=
  match dynamic_stops_body df with
  | Ok r => r
  | Raise _ => (PyF STOP_LOSS_PERCENT, PyF TAKE_PROFIT_PERCENT)
  end.

(** ** State of the running script *)

Record position := {
  side : string;
  quantity : pynum;
  entry_price : Q;
  stop_loss : Q;
  take_profit : Q
}.

Record trailing := {
  highest_price : Q;
  stop_price : Q;
  distance_percent : Q
}.

(** A real number computed by numpy, or NaN. *)
Inductive npreal :=
| RFin (r : R)
| RNaN.

(** The text of an alert; the volatility monitor formats its reading in. *)
Inductive alert_message :=
| HighVolatility (reading : R)
| Text (s : string).

Record price_alert := {
  alert_price : Q;
  direction : string;
  message : alert_message;
  triggered : bool
}.

Record RiskManager := {
  open_positions : gmap string position;
  price_alerts : gmap string (list price_alert);
  trailing_stops : gmap string trailing
}.

Record sample := { price : Q; timestamp : Z }.

Record PriceAnalyzer := {
  price_history : gmap string (list sample);
  volatility : gmap string npreal
}.

(** An order sent to the exchange. *)
Record order := {
  o_symbol : string;
  o_side : string;
  o_type : string;
  o_stopPrice : option Q;
  o_quantity : pynum
}.

(** The requests the script sends, in the client's names. *)
Inductive request :=
| futures_account
| futures_change_leverage (symbol : string) (leverage : Q)
| futures_ticker (symbol : string)
| futures_order_book (symbol : string)
| futures_klines (symbol : string)
| futures_exchange_info
| futures_create_order (o : order)
| futures_get_open_orders (symbol : string)
| futures_cancel_order (symbol : string) (orderId : Z).

(** What the exchange answers while one message is handled. [None] and
    [false] stand for a request that raises. *)
Record Exchange := {
  account : option (Q * Q);            (* totalMarginBalance, totalWalletBalance *)
  leverage_ok : string -> bool;
  ticker : string -> option (Q * Q);   (* volume, lastPrice *)
  order_book : string -> option (list Q * list Q);  (* ask prices, bid prices *)
  klines : string -> list bar;         (* empty when the request fails *)
  tick_size : string -> option Q;      (* the PRICE_FILTER of the symbol *)
  order_ok : order -> bool;
  open_orders : string -> option (list (string * Z));  (* type, orderId *)
  cancel_ok : string -> Z -> bool
}.

(** The module's globals, and the requests sent so far (oldest first). *)
Record state := {
  previous_prices : gmap string Q;
  TARGET_PRICES : gmap string (option pynum);
  risk_manager : RiskManager;
  price_analyzer : PriceAnalyzer;
  sent : list request
}.

(** ** The monad of the script: globals are mutated in place, so the state
    survives an exception. *)
Definition py (A : Type) : Type := state -> pyres A * state.

#[global] Instance py_ret : MRet py := fun A a s => (Ok a, s).
#[global] Instance py_bind : MBind py := fun A B f m s =>
  match m s with
  | (Ok a, s') => f a s'
  | (Raise e, s') => (Raise e, s')
  end.

Definition raise {A} (e : exn) : py A := fun s => (Raise e, s).
Definition lift {A} (r : pyres A) : py A := fun s => (r, s).
Definition get : py state := fun s => (Ok s, s).
Definition modify (f : state -> state) : py unit := fun s => (Ok tt, f s).

(** [try: m except Exception: h] *)
Definition try_except {A} (m : py A) (h : py A) : py A := fun s =>
  match m s with
  | (Ok a, s') => (Ok a, s')
  | (Raise _, s') => h s'
  end.

Definition set_risk_manager (rm : RiskManager) (s : state) : state :=
  {| previous_prices := previous_prices s; TARGET_PRICES := TARGET_PRICES s;
     risk_manager := rm; price_analyzer := price_analyzer s; sent := sent s |}.

Definition set_price_analyzer (pa : PriceAnalyzer) (s : state) : state :=
  {| previous_prices := previous_prices s; TARGET_PRICES := TARGET_PRICES s;
     risk_manager := risk_manager s; price_analyzer := pa; sent := sent s |}.

Definition set_open_positions (m : gmap string position) (rm : RiskManager)
    : RiskManager :=
  {| open_positions := m; price_alerts := price_alerts rm;
     trailing_stops := trailing_stops rm |}.

Definition set_price_alerts (m : gmap string (list price_alert)) (rm : RiskManager)
    : RiskManager :=
  {| open_positions := open_positions rm; price_alerts := m;
     trailing_stops := trailing_stops rm |}.

Definition set_trailing_stops (m : gmap string trailing) (rm : RiskManager)
    : RiskManager :=
  {| open_positions := open_positions rm; price_alerts := price_alerts rm;
     trailing_stops := m |}.

Definition modify_rm (f : RiskManager -> RiskManager) : py unit :=
  modify (fun s => set_risk_manager (f (risk_manager s)) s).

(** Sending a request: it is recorded, then answered or raised. *)
Definition send (r : request) : py unit :=
  modify (fun s =>
    {| previous_prices := previous_prices s; TARGET_PRICES := TARGET_PRICES s;
       risk_manager := risk_manager s; price_analyzer := price_analyzer s;
       sent := sent s ++ [r] |}).

Definition answer {A} (r : request) (a : option A) : py A :=
  send r;; match a with Some x => mret x | None => raise BinanceAPIException end.

Definition answer_ok (r : request) (ok : bool) : py unit :=
  send r;; if ok then mret tt else raise BinanceAPIException.

(** ** [RiskManager] methods and [open_position] *)

Section Exchange.

Variable ex : Exchange.

(** [RiskManager.check_margin_usage] *)
Definition check_margin_usage : py bool :=
  try_except
    (acc ← answer futures_account (account ex);
     margin_ratio ← lift (Qdiv_py (fst acc) (snd acc));
     mret (Qle_bool margin_ratio (8 # 10)))
    (mret false).

(** [RiskManager.set_leverage] *)
Definition set_leverage (symbol : string) : py unit :=
  try_except
    (answer_ok (futures_change_leverage symbol LEVERAGE) (leverage_ok ex symbol))
    (mret tt).

(** [xs[0]] *)
Definition first_item {A} (xs : list A) : pyres A :=
  match xs with x :: _ => Ok x | [] => Raise IndexError end.

(** [RiskManager.check_entry_conditions]; the [price] argument is not read. *)
Definition check_entry_conditions (symbol : string) (price : Q) : py bool :=
  try_except
    (s ← get;
     if (MAX_POSITIONS <=? size (open_positions (risk_manager s)))%nat then mret false
     else
       ticker_24h ← answer (futures_ticker symbol) (ticker ex symbol);
       if Qltb (fst ticker_24h * snd ticker_24h) MIN_VOLUME_USD then mret false
       else
         book ← answer (futures_order_book symbol) (order_book ex symbol);
         ask ← lift (first_item (fst book));
         bid ← lift (first_item (snd book));
         r ← lift (Qdiv_py (ask - bid) bid);
         let spread := r * 100 in
         if Qltb MAX_SPREAD_PERCENT spread then mret false
         else mret true)
    (mret false).

(** [get_tick_size]: it catches its own failures and returns [None]. *)
Definition get_tick_size (symbol : string) : py (option Q) :=
  send futures_exchange_info;; mret (tick_size ex symbol).

(** [round_price]. The quotient, its rounding and the product are exact
    here; in binary64 the product [round (price / tick_size) * tick_size] is
    rounded once more and need not be a whole multiple of the tick, a
    quotient next to a half can round the other way, and [round] of a
    quotient that overflowed raises [OverflowError]. *)
Definition round_price (price : pynum) (tick_size : option Q) : pyres Q :=
  match tick_size with
  | None => Raise TypeError
  | Some t =>
      d ← py_div price (PyF t);
      n ← py_round d;
      mret (inject_Z n * t)
  end.

(** [get_futures_klines]: an empty frame when the request fails. *)
Definition get_futures_klines (symbol : string) : py (list bar) :=
  send (futures_klines symbol);; mret (klines ex symbol).

Definition order_side_of (side : string) : string :=
  if String.eqb side "long" then "BUY" else "SELL".

Definition stop_order_side_of (side : string) : string :=
  if String.eqb side "long" then "SELL" else "BUY".

Definition create_order (o : order) : py unit :=
  answer_ok (futures_create_order o) (order_ok ex o).

(** The rest of the [try] of [open_position], once its checks have passed:
    sizing, the entry order, the two protective orders, the registry. *)
Definition place_orders (symbol side : string) (price : Q) : py unit :=
  acc ← answer futures_account (account ex);
  let balance := PyF (snd acc) in
  df ← get_futures_klines symbol;
  let '(stop_loss_percent, take_profit_percent) := calculate_dynamic_stops df in
  let current_price := PyF price in
  ds ← lift (py_div stop_loss_percent (PyF 100));
  let stop_loss_price := py_mul current_price (py_sub (PyF 1) ds) in
  dt ← lift (py_div take_profit_percent (PyF 100));
  let take_profit_price := py_mul current_price (py_add (PyF 1) dt) in
  quantity ← lift (calculate_position_size balance current_price stop_loss_price);
  let quantity := validate_position_size quantity balance in
  create_order {| o_symbol := symbol; o_side := order_side_of side;
                  o_type := "MARKET"; o_stopPrice := None;
                  o_quantity := quantity |};;
  tick_size ← get_tick_size symbol;
  stop_loss_price ← lift (round_price stop_loss_price tick_size);
  take_profit_price ← lift (round_price take_profit_price tick_size);
  create_order {| o_symbol := symbol; o_side := stop_order_side_of side;
                  o_type := "STOP_MARKET"; o_stopPrice := Some stop_loss_price;
                  o_quantity := quantity |};;
  create_order {| o_symbol := symbol; o_side := stop_order_side_of side;
                  o_type := "TAKE_PROFIT_MARKET";
                  o_stopPrice := Some take_profit_price;
                  o_quantity := quantity |};;
  modify_rm (fun rm =>
    set_open_positions
      (<[symbol := {| side := side; quantity := quantity;
                      entry_price := price; stop_loss := stop_loss_price;
                      take_profit := take_profit_price |}]>
         (open_positions rm)) rm).

(** [open_position] *)
Definition open_position (symbol side : string) (price : Q) : py unit :=
  try_except
    (ok ← check_margin_usage;
     if negb ok then mret tt
     else
       set_leverage symbol;;
       ok ← check_entry_conditions symbol price;
       if negb ok then mret tt
       else place_orders symbol side price)
    (mret tt).

(** [RiskManager.add_price_alert] *)
Definition add_price_alert (symbol : string) (price : Q) (direction : string)
    (message : alert_message) (rm : RiskManager) : RiskManager :=
  let old := default [] (price_alerts rm !! symbol) in
  set_price_alerts
    (<[symbol := old ++ [ {| alert_price := price; direction := direction;
                             message := message; triggered := false |} ] ]>
       (price_alerts rm)) rm.

(** The body of the loop of [RiskManager.check_price_alerts]. *)
Definition check_alert (current_price : Q) (alert : price_alert) : price_alert :=
  if negb (triggered alert) then
    if (String.eqb (direction alert) "above" && Qltb (alert_price alert) current_price)
       || (String.eqb (direction alert) "below" && Qltb current_price (alert_price alert))
    then {| alert_price := alert_price alert; direction := direction alert;
            message := message alert; triggered := true |}
    else alert
  else alert.

(** [RiskManager.check_price_alerts] *)
Definition check_price_alerts (symbol : string) (current_price : Q)
    (rm : RiskManager) : RiskManager :=
  match price_alerts rm !! symbol with
  | Some alerts =>
      set_price_alerts (<[symbol := map (check_alert current_price) alerts]>
                          (price_alerts rm)) rm
  | None => rm
  end.

(** The loop of [update_stop_loss_order] that cancels the live stop orders. *)
Fixpoint cancel_stop_orders (symbol : string) (orders : list (string * Z)) : py unit :=
  match orders with
  | [] => mret tt
  | (type, orderId) :: rest =>
      (if String.eqb type "STOP_MARKET"
       then answer_ok (futures_cancel_order symbol orderId) (cancel_ok ex symbol orderId)
       else mret tt);;
      cancel_stop_orders symbol rest
  end.

Definition set_stop_loss (new_stop_price : Q) (p : position) : position :=
  {| side := side p; quantity := quantity p; entry_price := entry_price p;
     stop_loss := new_stop_price; take_profit := take_profit p |}.

(** [RiskManager.update_stop_loss_order] *)
Definition update_stop_loss_order (symbol : string) (new_stop_price : Q) : py unit :=
  try_except
    (s ← get;
     match open_positions (risk_manager s) !! symbol with
     | None => raise KeyError
     | Some position =>
         orders ← answer (futures_get_open_orders symbol) (open_orders ex symbol);
         cancel_stop_orders symbol orders;;
         create_order {| o_symbol := symbol; o_side := stop_order_side_of (side position);
                         o_type := "STOP_MARKET"; o_stopPrice := Some new_stop_price;
                         o_quantity := quantity position |};;
         modify_rm (fun rm =>
           set_open_positions
             (alter (set_stop_loss new_stop_price) symbol (open_positions rm)) rm)
     end)
    (mret tt).

Definition set_trailing (symbol : string) (t : trailing) : py unit :=
  modify_rm (fun rm => set_trailing_stops (<[symbol := t]> (trailing_stops rm)) rm).

(** [RiskManager.update_trailing_stop] *)
Definition update_trailing_stop (symbol : string) (current_price : Q) : py unit :=
  s ← get;
  match open_positions (risk_manager s) !! symbol with
  | None => mret tt
  | Some position =>
      match trailing_stops (risk_manager s) !! symbol with
      | None =>
          let initial_stop := stop_loss position in
          d ← lift (Qdiv_py (Qabs (current_price - initial_stop)) current_price);
          set_trailing symbol
            {| highest_price := current_price; stop_price := initial_stop;
               distance_percent := d * 100 |}
      | Some trailing =>
          if String.eqb (side position) "long" then
            if Qltb (highest_price trailing) current_price then
              let new_stop := current_price * (1 - distance_percent trailing / 100) in
              if Qltb (stop_price trailing) new_stop then
                set_trailing symbol
                  {| highest_price := current_price; stop_price := new_stop;
                     distance_percent := distance_percent trailing |};;
                update_stop_loss_order symbol new_stop
              else
                set_trailing symbol
                  {| highest_price := current_price; stop_price := stop_price trailing;
                     distance_percent := distance_percent trailing |}
            else mret tt
          else mret tt
      end
  end.

(** [RiskManager.calculate_liquidation_price] *)
Definition calculate_liquidation_price (position : position) : Q :=
  if String.eqb (side position) "long"
  then entry_price position * (1 - 1 / LEVERAGE)
  else entry_price position * (1 + 1 / LEVERAGE).

(** [determine_target_price]: SMA20 of the closes minus the 14-bar mean of
    [high - low]; [None] for an empty frame. *)
Definition determine_target_price (symbol : string) : py (option pynum) :=
  df ← get_futures_klines symbol;
  match df with
  | [] => mret None
  | _ =>
      let sma_20 := rolling_mean_last 20 (map close df) in
      let atr := rolling_mean_last 14 (map (fun b => high b - low b) df) in
      mret (Some (NpF (np_sub sma_20 atr)))
  end.

(** ** [PriceAnalyzer] *)

Definition Rsum (xs : list R) : R := foldr Rplus 0%R xs.

Definition Rmean (xs : list R) : R := (Rsum xs / INR (length xs))%R.

(** [np.diff] *)
Fixpoint np_diff (xs : list R) : list R :=
  match xs with
  | x :: (y :: _) as rest => (y - x)%R :: np_diff rest
  | _ => []
  end.

(** [np.std]: the population standard deviation (of a non-empty array; the
    window of 20 prices always gives 19 returns). *)
Definition np_std (xs : list R) : R :=
  sqrt (Rmean (map (fun x => Rsqr (x - Rmean xs)) xs)).

(** [np.std(np.diff(np.log(prices))) * np.sqrt(20) * 100]. The logarithm of a
    price that is not positive is infinite or NaN, and the result is NaN. *)
Definition volatility_of (prices : list Q) : npreal :=
  if forallb (Qltb 0) prices then
    let returns := np_diff (map (fun p => ln (Q2R p)) prices) in
    RFin (np_std returns * sqrt 20 * 100)%R
  else RNaN.

(** [volatility > 100] *)
Definition above_100 (v : npreal) : bool :=
  match v with
  | RFin r => if Rlt_dec 100 r then true else false
  | RNaN => false
  end.

Definition reading (v : npreal) : R :=
  match v with RFin r => r | RNaN => 0%R end.

Definition set_price_history (m : gmap string (list sample)) (pa : PriceAnalyzer)
    : PriceAnalyzer :=
  {| price_history := m; volatility := volatility pa |}.

Definition set_volatility (m : gmap string npreal) (pa : PriceAnalyzer)
    : PriceAnalyzer :=
  {| price_history := price_history pa; volatility := m |}.

Definition modify_pa (f : PriceAnalyzer -> PriceAnalyzer) : py unit :=
  modify (fun s => set_price_analyzer (f (price_analyzer s)) s).

(** [PriceAnalyzer._update_volatility]; the alert goes to the global
    [risk_manager]. *)
Definition _update_volatility (symbol : string) : py unit :=
  s ← get;
  match price_history (price_analyzer s) !! symbol with
  | None => raise KeyError
  | Some history =>
      if (length history <? 20)%nat then mret tt
      else
        let prices := map price (last_n 20 history) in
        let vol := volatility_of prices in
        modify_pa (fun pa => set_volatility (<[symbol := vol]> (volatility pa)) pa);;
        if above_100 vol then
          match last prices with
          | None => raise IndexError
          | Some p =>
              modify_rm (add_price_alert symbol p "both" (HighVolatility (reading vol)))
          end
        else mret tt
  end.

(** [PriceAnalyzer.update_price_data] *)
Definition update_price_data (symbol : string) (price : Q) (timestamp : Z) : py unit :=
  modify_pa (fun pa =>
    let history := default [] (price_history pa !! symbol)
                   ++ [ {| price := price; timestamp := timestamp |} ] in
    let history := if (1000 <? length history)%nat then last_n 1000 history
                   else history in
    set_price_history (<[symbol := history]> (price_history pa)) pa);;
  _update_volatility symbol.

(** ** [handle_socket_message] *)

(** An aggregated-trade message with its keys ['e'], ['s'], ['p'], ['E']
    present and the price already parsed by [float]. *)
Record socket_message := { msg_e : string; msg_s : string; msg_p : Q; msg_E : Z }.

(** [risk_manager.partial_close_position]: [RiskManager] defines no such
    attribute, so looking it up raises. *)
Definition partial_close_position (symbol : string) (close_amount : pynum) : py unit :=
  raise (AttributeError "partial_close_position").

(** The [for level in PARTIAL_CLOSE_LEVELS] loop with its [break]. *)
Fixpoint partial_close_loop (symbol : string) (position : position) (pnl_percent : Q)
    (levels : list level) : py unit :=
  match levels with
  | [] => mret tt
  | level :: rest =>
      if Qle_bool (profit level) pnl_percent then
        let close_amount := py_mul (quantity position) (PyF (close_percent level)) in
        partial_close_position symbol close_amount
      else partial_close_loop symbol position pnl_percent rest
  end.

(** [pnl_percent] of a position at a price. *)
Definition pnl_percent_of (position : position) (price : Q) : pyres Q :=
  r ← Qdiv_py (price - entry_price position) (entry_price position);
  mret (r * 100 * (if String.eqb (side position) "long" then 1 else -1)).

(** The partial-close block of the handler. *)
Definition partial_close_check (symbol : string) (price : Q) : py unit :=
  s ← get;
  match open_positions (risk_manager s) !! symbol with
  | None => mret tt
  | Some position =>
      pnl_percent ← lift (pnl_percent_of position price);
      partial_close_loop symbol position pnl_percent PARTIAL_CLOSE_LEVELS
  end.

(** The liquidation warning at the end of the handler: it only logs. *)
Definition liquidation_check (symbol : string) (price : Q) : py unit :=
  s ← get;
  match open_positions (risk_manager s) !! symbol with
  | None => mret tt
  | Some position =>
      let liq_price := calculate_liquidation_price position in
      _ ← lift (Qdiv_py (Qabs (price - liq_price)) price);
      mret tt
  end.

Definition set_previous_price (symbol : string) (price : Q) (s : state) : state :=
  {| previous_prices := <[symbol := price]> (previous_prices s);
     TARGET_PRICES := TARGET_PRICES s; risk_manager := risk_manager s;
     price_analyzer := price_analyzer s; sent := sent s |}.

Definition set_target_price (symbol : string) (t : option pynum) (s : state) : state :=
  {| previous_prices := previous_prices s;
     TARGET_PRICES := <[symbol := t]> (TARGET_PRICES s);
     risk_manager := risk_manager s; price_analyzer := price_analyzer s;
     sent := sent s |}.

(** Truth value of a number: zero is false, NaN is true. *)
Definition truthy (a : pynum) : bool :=
  match value a with Fin q => negb (Qeq_bool q 0) | _ => true end.

(** [target_price and price <= target_price] *)
Definition target_reached (target_price : option pynum) (price : Q) : bool :=
  match target_price with
  | Some t => truthy t && py_le (PyF price) t
  | None => false
  end.

(** The volatility test before an entry: [symbol in price_analyzer.volatility]
    and [volatility > 100]. *)
Definition volatility_blocks (s : state) (symbol : string) : bool :=
  match volatility (price_analyzer s) !! symbol with
  | Some v => above_100 v
  | None => false
  end.

(** The body of the handler's [try]. *)
Definition handle_body (msg : socket_message) : py unit :=
  if String.eqb (msg_e msg) "aggTrade" then
    let symbol := msg_s msg in
    let price := msg_p msg in
    let timestamp := msg_E msg in
    s ← get;
    (if match previous_prices s !! symbol with
        | None => true
        | Some previous => negb (Qeq_bool previous price)
        end
     then
       modify (set_previous_price symbol price);;
       update_price_data symbol price timestamp;;
       update_trailing_stop symbol price;;
       modify_rm (check_price_alerts symbol price);;
       partial_close_check symbol price
     else mret tt);;
    s ← get;
    (match TARGET_PRICES s !! symbol with
     | Some (Some _) => mret tt
     | _ =>
         t ← determine_target_price symbol;
         modify (set_target_price symbol t)
     end);;
    s ← get;
    let target_price := mjoin (TARGET_PRICES s !! symbol) in
    if target_reached target_price price then
      if volatility_blocks s symbol then mret tt
      else
        open_position symbol "long" price;;
        liquidation_check symbol price
    else liquidation_check symbol price
  else mret tt.

(** [handle_socket_message]: every exception of the body is logged and dropped. *)
Definition handle_socket_message (msg : socket_message) : py unit :=
  try_except (handle_body msg) (mret tt).

(** ** The checks before an entry *)

(** The head of [open_position]: the checks it runs before it sizes the
    entry. *)
Definition position_checks (symbol : string) (price : Q) : py bool :=
  ok ← check_margin_usage;
  if negb ok then mret false
  else
    set_leverage symbol;;
    check_entry_conditions symbol price.

(** The checks an entry passes through, in the order the code runs them: the
    volatility test of the handler, then the head of [open_position]. *)
Definition entry_gate (symbol : string) (price : Q) : py bool :=
  s ← get;
  if volatility_blocks s symbol then mret false
  else position_checks symbol price.

(** The gate in the order the specification gives: position count, volume,
    spread, margin ratio, volatility; a failing request rejects. *)
Definition can_enter_as_specified (symbol : string) (current_price : Q) : py bool :=
  try_except
    (s ← get;
     if (MAX_POSITIONS <=? size (open_positions (risk_manager s)))%nat then mret false
     else
       ticker_24h ← answer (futures_ticker symbol) (ticker ex symbol);
       if Qltb (fst ticker_24h * snd ticker_24h) MIN_VOLUME_USD then mret false
       else
         book ← answer (futures_order_book symbol) (order_book ex symbol);
         ask ← lift (first_item (fst book));
         bid ← lift (first_item (snd book));
         r ← lift (Qdiv_py (ask - bid) bid);
         if Qltb MAX_SPREAD_PERCENT (r * 100) then mret false
         else
           acc ← answer futures_account (account ex);
           margin_ratio ← lift (Qdiv_py (fst acc) (snd acc));
           if negb (Qle_bool margin_ratio (8 # 10)) then mret false
           else mret (negb (volatility_blocks s symbol)))
    (mret false).

End Exchange.

(** The globals after one message, and after a sequence of messages, each
    with the answers of the exchange at that moment. *)
Definition after_message (ex : Exchange) (msg : socket_message) (s : state) : state :=
  snd (handle_socket_message ex msg s).

Definition after_messages (feed : list (Exchange * socket_message)) (s : state) : state :=
  foldl (fun s '(ex, msg) => after_message ex msg s) s feed.

(** ** Runs used by the statements *)

(** [update_trailing_stop] over a sequence of ticks. *)
Definition trailing_run (symbol : string) (ticks : list (Exchange * Q)) (s : state)
    : state :=
  foldl (fun s '(ex, p) => snd (update_trailing_stop ex symbol p s)) s ticks.

(** The two operations on the alert store, and a sequence of them. *)
Inductive alert_op :=
| add_alert (symbol : string) (price : Q) (direction : string) (message : alert_message)
| check_alerts (symbol : string) (current_price : Q).

Definition run_alert_op (rm : RiskManager) (op : alert_op) : RiskManager :=
  match op with
  | add_alert symbol price direction message =>
      add_price_alert symbol price direction message rm
  | check_alerts symbol current_price => check_price_alerts symbol current_price rm
  end.

Definition run_alert_ops (ops : list alert_op) (rm : RiskManager) : RiskManager :=
  foldl run_alert_op rm ops.

(** The level at which [partial_close_loop] stops, if any. *)
Fixpoint first_level_met (pnl_percent : Q) (levels : list level) : option level :=
  match levels with
  | [] => None
  | level :: rest =>
      if Qle_bool (profit level) pnl_percent then Some level
      else first_level_met pnl_percent rest
  end.

(** The gate's decisions as plain tests on the answers of the exchange. *)
Definition volatility_ok (s : state) (symbol : string) : bool :=
  negb (volatility_blocks s symbol).

Definition margin_ok (ex : Exchange) : bool :=
  match account ex with
  | Some (margin, wallet) => negb (Qeq_bool wallet 0) && Qle_bool (margin / wallet) (8 # 10)
  | None => false
  end.

Definition count_ok (s : state) : bool :=
  (size (open_positions (risk_manager s)) <? MAX_POSITIONS)%nat.

Definition volume_ok (ex : Exchange) (symbol : string) : bool :=
  match ticker ex symbol with
  | Some (volume, last_price) => Qle_bool MIN_VOLUME_USD (volume * last_price)
  | None => false
  end.

Definition spread_ok (ex : Exchange) (symbol : string) : bool :=
  match order_book ex symbol with
  | Some (ask :: _, bid :: _) =>
      negb (Qeq_bool bid 0) && Qle_bool ((ask - bid) / bid * 100) MAX_SPREAD_PERCENT
  | _ => false
  end.

(** The requests of the checks of [open_position] up to and including the
    check that fails, in the order of the code. *)
Definition checks_requests (ex : Exchange) (s : state) (symbol : string)
    : list request :=
  if negb (margin_ok ex) then [futures_account]
  else if negb (count_ok s) then
    [futures_account; futures_change_leverage symbol LEVERAGE]
  else if negb (volume_ok ex symbol) then
    [futures_account; futures_change_leverage symbol LEVERAGE; futures_ticker symbol]
  else
    [futures_account; futures_change_leverage symbol LEVERAGE; futures_ticker symbol;
     futures_order_book symbol].

(** The same for the whole gate: nothing is requested when the volatility
    test rejects. *)
Definition gate_requests (ex : Exchange) (s : state) (symbol : string) : list request :=
  if negb (volatility_ok s symbol) then [] else checks_requests ex s symbol.

(** Whether an order of the given type was sent among the requests and
    accepted (or refused) by the exchange. *)
Definition placed (ex : Exchange) (type : string) (accepted : bool)
    (requests : list request) : bool :=
  existsb (fun r => match r with
                    | futures_create_order o =>
                        String.eqb (o_type o) type && Bool.eqb (order_ok ex o) accepted
                    | _ => false
                    end) requests.

Definition add_sent (requests : list request) (s : state) : state :=
  {| previous_prices := previous_prices s; TARGET_PRICES := TARGET_PRICES s;
     risk_manager := risk_manager s; price_analyzer := price_analyzer s;
     sent := sent s ++ requests |}.

(** ** Other functions of the script *)

(** The two counters of [RiskManager] that [update_trade_stats] maintains. *)
Record trade_stats := { total_trades : nat; profitable_trades : nat }.

(** [RiskManager.update_trade_stats] *)
Definition update_trade_stats (pnl : Q) (st : trade_stats) : trade_stats :=
  {| total_trades := S (total_trades st);
     profitable_trades := if Qltb 0 pnl then S (profitable_trades st)
                          else profitable_trades st |}.

(** The counters as [RiskManager.__init__] sets them. *)
Definition no_trades : trade_stats := {| total_trades := 0; profitable_trades := 0 |}.

(** The test of the liquidation warning at the end of the handler:
    [abs(price - liq_price) / price < 0.2]. *)
Definition near_liquidation (position : position) (price : Q) : pyres bool :=
  let liq_price := calculate_liquidation_price position in
  d ← Qdiv_py (Qabs (price - liq_price)) price;
  mret (Qltb d (2 # 10)).

(** [BinanceTrader.check_price_target] on the global [TARGET_PRICES] and the
    trader's flag [price_alert_sent]: whether the alert is logged, and the
    flag afterwards.  A target stored as [None] cannot be compared. *)
Definition check_price_target (targets : gmap string (option pynum)) (symbol : string)
    (price : Q) (price_alert_sent : bool) : pyres (bool * bool) :=
  match targets !! symbol with
  | None => Ok (false, price_alert_sent)
  | Some None => Raise TypeError
  | Some (Some target_price) =>
      if py_le target_price (PyF price) then
        if negb price_alert_sent then Ok (true, true)
        else Ok (false, price_alert_sent)
      else
        if py_lt (PyF price) (py_mul target_price (PyF (999 # 1000)))
        then Ok (false, false)
        else Ok (false, price_alert_sent)
  end.

(** The flag and the number of alerts logged after a sequence of calls; a
    call that raises changes neither. *)
Definition check_price_targets (targets : gmap string (option pynum))
    (calls : list (string * Q)) (price_alert_sent : bool) : nat * bool :=
  foldl (fun '(logged, flag) '(symbol, price) =>
           match check_price_target targets symbol price flag with
           | Ok (true, flag') => (S logged, flag')
           | Ok (false, flag') => (logged, flag')
           | Raise _ => (logged, flag)
           end) (0%nat, price_alert_sent) calls.

(** The calls that reset the flag: a price under 99.9 percent of the target. *)
Definition resets (targets : gmap string (option pynum)) (call : string * Q) : bool :=
  match targets !! call.1 with
  | Some (Some target_price) =>
      negb (py_le target_price (PyF call.2))
      && py_lt (PyF call.2) (py_mul target_price (PyF (999 # 1000)))
  | _ => false
  end.

End RealTrading.

Module RealTradingWebsocket.

(** ** The reconnecting feed of [Real_Trading_Websocket.py] *)

Definition MAX_RECONNECT_ATTEMPTS : nat := 5.

(** The messages [send_telegram_message] is called with. *)
Inductive notification :=
| ConnectError            (* "Ошибка при подключении WebSocket" *)
| MaxAttemptsExceeded     (* "Превышено максимальное количество попыток переподключения" *)
| ReconnectError.         (* "Ошибка при переподключении WebSocket" *)

(** Where a run of [start_symbol_ticker_socket] ends. *)
Inductive outcome :=
| Subscribed      (* the socket started *)
| GaveUp          (* the attempt bound was exceeded: no further attempt *)
| Broken          (* restarting the manager raised: no further attempt *)
| Connecting.     (* the script of answers ran out while still trying *)

(** What the transport does in one round: whether the socket starts, and,
    when it does not, whether the manager restarts in the reconnection that
    follows ([twm.stop()] and [initialize_websocket_manager()]); [false]
    raises. *)
Record round := { socket_ok : bool; restart_ok : bool }.

(** The global [reconnect_attempts], the sockets started so far, and the
    notifications sent (oldest first). *)
Record feed := {
  reconnect_attempts : nat;
  socket_starts : nat;
  notifications : list notification
}.

Definition notify (n : notification) (f : feed) : feed :=
  {| reconnect_attempts := reconnect_attempts f; socket_starts := socket_starts f;
     notifications := notifications f ++ [n] |}.

Definition set_attempts (n : nat) (f : feed) : feed :=
  {| reconnect_attempts := n; socket_starts := socket_starts f;
     notifications := notifications f |}.

Definition count_start (f : feed) : feed :=
  {| reconnect_attempts := reconnect_attempts f; socket_starts := S (socket_starts f);
     notifications := notifications f |}.

(** [reconnect_websocket], with its call of [start_symbol_ticker_socket] as
    [start]. *)
Definition reconnect_websocket_with (start : feed -> outcome * feed)
    (restart_ok : bool) (f : feed) : outcome * feed :=
  let f := set_attempts (S (reconnect_attempts f)) f in
  if (MAX_RECONNECT_ATTEMPTS <? reconnect_attempts f)%nat then
    (GaveUp, notify MaxAttemptsExceeded f)
  else if restart_ok then start f
  else (Broken, notify ReconnectError f).

(** [start_symbol_ticker_socket]: the counter is reset, then the socket is
    started; a failure notifies and reconnects. Each failed round nests two
    more calls; the recursion limit of the interpreter is not modelled: a
    run of some hundreds of failed rounds in a row ends there, in a
    [RecursionError] that the [except] of [reconnect_websocket] reports like
    a failed restart. *)
Fixpoint start_symbol_ticker_socket (script : list round) (f : feed) : outcome * feed :=
  match script with
  | [] => (Connecting, f)
  | r :: rest =>
      let f := count_start (set_attempts 0 f) in
      if socket_ok r then (Subscribed, f)
      else
        reconnect_websocket_with (start_symbol_ticker_socket rest) (restart_ok r)
          (notify ConnectError f)
  end.

(** [reconnect_websocket] *)
Definition reconnect_websocket (restart_ok : bool) (script : list round) (f : feed)
    : outcome * feed :=
  reconnect_websocket_with (start_symbol_ticker_socket script) restart_ok f.

(** The globals when the script is loaded. *)
Definition initial_feed : feed :=
  {| reconnect_attempts := 0; socket_starts := 0; notifications := [] |}.

(** A round in which the socket does not start, and one in which it does. *)
Definition failing : round := {| socket_ok := false; restart_ok := true |}.
Definition succeeding : round := {| socket_ok := true; restart_ok := true |}.

(** ** The entries of [Real_Trading_Websocket.py] *)

Definition MAX_POSITION : Q := 3 # 100.
Definition STOP_LOSS_PERCENT : Q := 2.
Definition TAKE_PROFIT_PERCENT : Q := 2.
Definition TARGET_PRICE : Q := 2500.

(** The requests of this script to the exchange. *)
Inductive call :=
| futures_create_order (o : RealTrading.order)
| futures_exchange_info
| get_symbol_ticker (symbol : string).

(** What the client answers while one message is handled; [false] and
    [None] stand for a request that raises ([get_tick_size] catches its own
    failures and returns [None]). *)
Record Client := {
  order_ok : RealTrading.order -> bool;
  tick_size : string -> option Q;
  symbol_ticker : string -> option Q
}.

Definition market_order (symbol side : string) (quantity : Q) : RealTrading.order :=
  {| RealTrading.o_symbol := symbol;
     RealTrading.o_side := RealTrading.order_side_of side;
     RealTrading.o_type := "MARKET"; RealTrading.o_stopPrice := None;
     RealTrading.o_quantity := PyF quantity |}.

Definition protective_order (symbol side type : string) (stopPrice quantity : Q)
    : RealTrading.order :=
  {| RealTrading.o_symbol := symbol;
     RealTrading.o_side := RealTrading.stop_order_side_of side;
     RealTrading.o_type := type; RealTrading.o_stopPrice := Some stopPrice;
     RealTrading.o_quantity := PyF quantity |}.

(** [open_position]: the requests it sends, in order. Every exception ends
    it (the [except] only logs); the Telegram message and the sound after the
    entry catch their own failures. *)
Definition open_position (c : Client) (symbol side : string) (quantity : Q)
    : list call :=
  futures_create_order (market_order symbol side quantity)
  :: (if order_ok c (market_order symbol side quantity) then
        futures_exchange_info
        :: get_symbol_ticker symbol
        :: match symbol_ticker c symbol with
           | None => []
           | Some current_price =>
               match RealTrading.round_price
                       (PyF (current_price * (1 - STOP_LOSS_PERCENT / 100)))
                       (tick_size c symbol),
                     RealTrading.round_price
                       (PyF (current_price * (1 + TAKE_PROFIT_PERCENT / 100)))
                       (tick_size c symbol)
               with
               | Ok stop_loss, Ok take_profit =>
                   futures_create_order
                     (protective_order symbol side "STOP_MARKET" stop_loss quantity)
                   :: (if order_ok c (protective_order symbol side "STOP_MARKET"
                                        stop_loss quantity)
                       then [futures_create_order
                               (protective_order symbol side "TAKE_PROFIT_MARKET"
                                  take_profit quantity)]
                       else [])
               | _, _ => []
               end
           end
      else []).

(** [handle_socket_message]: the requests one message leads to. *)
Definition handle_socket_message (c : Client) (msg : RealTrading.socket_message)
    : list call :=
  if String.eqb (RealTrading.msg_e msg) "aggTrade" then
    if Qle_bool (RealTrading.msg_p msg) TARGET_PRICE
    then open_position c (RealTrading.msg_s msg) "long" MAX_POSITION
    else []
  else [].

(** The requests of a sequence of messages, each with the answers of the
    client at that moment. *)
Definition handle_messages (messages : list (Client * RealTrading.socket_message))
    : list call :=
  flat_map (fun '(c, msg) => handle_socket_message c msg) messages.

(** The market orders among the requests. *)
Definition market_orders (calls : list call) : list RealTrading.order :=
  omap (fun c => match c with
                 | futures_create_order o =>
                     if String.eqb (RealTrading.o_type o) "MARKET" then Some o else None
                 | _ => None
                 end) calls.

(** A trade at or under the target. *)
Definition at_target (msg : RealTrading.socket_message) : bool :=
  String.eqb (RealTrading.msg_e msg) "aggTrade"
  && Qle_bool (RealTrading.msg_p msg) TARGET_PRICE.

End RealTradingWebsocket.


(** ** Concrete inputs used by the examples *)

Module Scenario.
Import RealTrading.

(** An exchange that answers every request: balance 10000 with margin 100,
    a liquid symbol quoted 100 / 100.01, a hundred flat bars, tick size 0.1,
    one live stop order, every order accepted. *)
Definition exchange : Exchange :=
  {| account := Some (100, 10000);
     leverage_ok := fun _ => true;
     ticker := fun _ => Some (50000, 100);
     order_book := fun _ => Some ([100 + (1 # 100)], [100]);
     klines := fun _ => repeat {| high := 101; low := 99; close := 100 |} 100;
     tick_size := fun _ => Some (1 # 10);
     order_ok := fun _ => true;
     open_orders := fun _ => Some [("STOP_MARKET"%string, 7%Z)];
     cancel_ok := fun _ _ => true |}.

(** The same exchange refusing the stop-loss order. *)
Definition exchange_refusing_stop : Exchange :=
  {| account := account exchange; leverage_ok := leverage_ok exchange;
     ticker := ticker exchange; order_book := order_book exchange;
     klines := klines exchange; tick_size := tick_size exchange;
     order_ok := fun o => negb (String.eqb (o_type o) "STOP_MARKET");
     open_orders := open_orders exchange; cancel_ok := cancel_ok exchange |}.

(** A long position of 10 units entered at 100 with its stop at 98. *)
Definition long_position : position :=
  {| side := "long"; quantity := PyF 10; entry_price := 100; stop_loss := 98;
     take_profit := 103 |}.

Definition empty_analyzer : PriceAnalyzer :=
  {| price_history := ∅; volatility := ∅ |}.

(** The globals with that position open on BTCUSDT and a target price of 90. *)
Definition holding : state :=
  {| previous_prices := ∅;
     TARGET_PRICES := {[ "BTCUSDT"%string := Some (PyF 90) ]};
     risk_manager := {| open_positions := {[ "BTCUSDT"%string := long_position ]};
                        price_alerts := ∅; trailing_stops := ∅ |};
     price_analyzer := empty_analyzer;
     sent := [] |}.

(** The globals with nothing open and a target price of 100 on BTCUSDT. *)
Definition flat : state :=
  {| previous_prices := ∅;
     TARGET_PRICES := {[ "BTCUSDT"%string := Some (PyF 100) ]};
     risk_manager := {| open_positions := ∅; price_alerts := ∅; trailing_stops := ∅ |};
     price_analyzer := empty_analyzer;
     sent := [] |}.

(** The globals with three positions open (the maximum) and none on BTCUSDT. *)
Definition full : state :=
  {| previous_prices := ∅;
     TARGET_PRICES := {[ "BTCUSDT"%string := Some (PyF 100) ]};
     risk_manager :=
       {| open_positions := {[ "ETHUSDT"%string := long_position;
                               "BNBUSDT"%string := long_position;
                               "ADAUSDT"%string := long_position ]};
          price_alerts := ∅; trailing_stops := ∅ |};
     price_analyzer := empty_analyzer;
     sent := [] |}.

(** A trade of BTCUSDT at a price. *)
Definition tick (p : Q) : socket_message :=
  {| msg_e := "aggTrade"; msg_s := "BTCUSDT"; msg_p := p; msg_E := 0 |}.

(** The same exchange for a newly listed symbol: ten bars of history. *)
Definition exchange_short_history : Exchange :=
  {| account := account exchange; leverage_ok := leverage_ok exchange;
     ticker := ticker exchange; order_book := order_book exchange;
     klines := fun _ => repeat {| high := 101; low := 99; close := 100 |} 10;
     tick_size := tick_size exchange; order_ok := order_ok exchange;
     open_orders := open_orders exchange; cancel_ok := cancel_ok exchange |}.

(** The globals when the script starts. *)
Definition fresh : state :=
  {| previous_prices := ∅; TARGET_PRICES := ∅;
     risk_manager := {| open_positions := ∅; price_alerts := ∅; trailing_stops := ∅ |};
     price_analyzer := empty_analyzer;
     sent := [] |}.

(** The trailing stop of [long_position] after a first tick at 100. *)
Definition first_trailing : trailing :=
  {| highest_price := 100; stop_price := 98; distance_percent := 2 |}.

(** The globals with the position open and that trailing stop. *)
Definition trailed : state :=
  {| previous_prices := {[ "BTCUSDT"%string := 100 ]};
     TARGET_PRICES := {[ "BTCUSDT"%string := Some (PyF 90) ]};
     risk_manager := {| open_positions := {[ "BTCUSDT"%string := long_position ]};
                        price_alerts := ∅;
                        trailing_stops := {[ "BTCUSDT"%string := first_trailing ]} |};
     price_analyzer := empty_analyzer;
     sent := [] |}.

(** The globals with nothing open and a NaN target on BTCUSDT. *)
Definition flat_nan_target : state :=
  {| previous_prices := ∅;
     TARGET_PRICES := {[ "BTCUSDT"%string := Some (NpF NaN) ]};
     risk_manager := {| open_positions := ∅; price_alerts := ∅; trailing_stops := ∅ |};
     price_analyzer := empty_analyzer;
     sent := [] |}.

(** Twenty prices that alternate between 1 and 2. *)
Definition alternating_prices : list Q := concat (repeat [1; 2] 10).

(** The globals with the position open, after a trade at 101 has been
    seen. *)
Definition holding_at_101 : state :=
  {| previous_prices := {[ "BTCUSDT"%string := 101 ]};
     TARGET_PRICES := {[ "BTCUSDT"%string := Some (PyF 90) ]};
     risk_manager := {| open_positions := {[ "BTCUSDT"%string := long_position ]};
                        price_alerts := ∅; trailing_stops := ∅ |};
     price_analyzer := empty_analyzer;
     sent := [] |}.

(** The globals with nothing open and a full history of 1000 samples on
    BTCUSDT. *)
Definition full_history : state :=
  {| previous_prices := ∅;
     TARGET_PRICES := {[ "BTCUSDT"%string := Some (PyF 100) ]};
     risk_manager := {| open_positions := ∅; price_alerts := ∅; trailing_stops := ∅ |};
     price_analyzer :=
       {| price_history :=
            {[ "BTCUSDT"%string := repeat {| price := 100; timestamp := 0 |} 1000 ]};
          volatility := ∅ |};
     sent := [] |}.

End Scenario.

(** ** Views of the state and of runs, used by the statements and proofs *)

Module Views.
Import RealTrading.

(** [preserves R m]: running [m] from any state leads to a state related to
    it by [R], whether [m] returns or raises. *)
Definition preserves (R : state -> state -> Prop) {A} (m : py A) : Prop :=
  forall s, R s (snd (m s)).

(** Same trailing stops. *)
Definition same_trailing (s s' : state) : Prop :=
  trailing_stops (risk_manager s') = trailing_stops (risk_manager s).

(** Same open positions but for their stop-loss. *)
Definition same_positions_but_stop (s s' : state) : Prop :=
  forall symbol,
    set_stop_loss 0 <$> open_positions (risk_manager s') !! symbol
    = set_stop_loss 0 <$> open_positions (risk_manager s) !! symbol.

(** Orders are only added, and the added ones are stop orders. *)
Definition only_stop_orders (s s' : state) : Prop :=
  forall o, In (futures_create_order o) (sent s') ->
            In (futures_create_order o) (sent s) \/ o_type o = "STOP_MARKET"%string.

(** The trailing stop of a symbol after one call of [update_trailing_stop],
    from the position and the trailing stop before it. *)
Definition next_trailing (pos : option position) (t : option trailing) (p : Q)
    : option trailing :=
  match pos, t with
  | None, _ => t
  | Some position, None =>
      if Qeq_bool p 0 then None
      else Some {| highest_price := p; stop_price := stop_loss position;
                   distance_percent := Qabs (p - stop_loss position) / p * 100 |}
  | Some position, Some tr =>
      if String.eqb (side position) "long" && Qltb (highest_price tr) p then
        let new_stop := p * (1 - distance_percent tr / 100) in
        Some {| highest_price := p;
                stop_price := if Qltb (stop_price tr) new_stop then new_stop
                              else stop_price tr;
                distance_percent := distance_percent tr |}
      else Some tr
  end.

(** The stop of a symbol's trailing stop, once there is one. *)
Definition stop_of (symbol : string) (s : state) : option Q :=
  stop_price <$> trailing_stops (risk_manager s) !! symbol.

(** A trailing stop in order: the stop is not above the highest price, and
    the distance is not negative. *)
Definition trailing_in_order (tr : trailing) : Prop :=
  stop_price tr <= highest_price tr /\ 0 <= distance_percent tr.

(** The history of a symbol after a sample is recorded. *)
Definition recorded (symbol : string) (p : Q) (ts : Z) (s : state) : list sample :=
  let history := default [] (price_history (price_analyzer s) !! symbol)
                 ++ [ {| price := p; timestamp := ts |} ] in
  if (1000 <? length history)%nat then last_n 1000 history else history.

(** The price differs from the last one seen for the symbol. *)
Definition price_is_new (s : state) (symbol : string) (p : Q) : bool :=
  match previous_prices s !! symbol with
  | None => true
  | Some previous => negb (Qeq_bool previous p)
  end.

(** The block of the handler that runs before the partial-close check. *)
Definition before_partial_close (ex : Exchange) (msg : socket_message) : py unit :=
  modify (set_previous_price (msg_s msg) (msg_p msg));;
  update_price_data (msg_s msg) (msg_p msg) (msg_E msg);;
  update_trailing_stop ex (msg_s msg) (msg_p msg);;
  modify_rm (check_price_alerts (msg_s msg) (msg_p msg)).

(** The requests of [check_entry_conditions]. *)
Definition conditions_requests (ex : Exchange) (s : state) (symbol : string)
    : list request :=
  if negb (count_ok s) then []
  else if negb (volume_ok ex symbol) then [futures_ticker symbol]
  else [futures_ticker symbol; futures_order_book symbol].

(** The orders among the requests [new] were all accepted. *)
Definition all_accepted (ex : Exchange) (new : list request) : Prop :=
  forall o, In (futures_create_order o) new -> order_ok ex o = true.

(** A protective order among [new] comes after an accepted market order. *)
Definition entry_filled_first (ex : Exchange) (new : list request) : Prop :=
  forall o, In (futures_create_order o) new -> o_type o <> "MARKET"%string ->
            exists m, In (futures_create_order m) new
                      /\ o_type m = "MARKET"%string /\ order_ok ex m = true.

(** The average true range the frame gives when it has 14 rows or more. *)
Definition atr_of (df : list bar) : Q :=
  Qsum (last_n 14 (true_range df)) / inject_Z (Z.of_nat 14).

(** The stop percentage before it is clamped. *)
Definition raw_stop_percent (df : list bar) (current_price : Q) : Q :=
  atr_of df * ATR_MULTIPLIER / current_price * 100.

(** [max(min(x, MAX_STOP_LOSS), MIN_STOP_LOSS)] *)
Definition clamp_stop (x : pynum) : pynum :=
  py_max (py_min x (PyF MAX_STOP_LOSS)) (PyF MIN_STOP_LOSS).

(** A trailing stop that exists stays, and its stop does not decrease. *)
Definition stops_rise (s s' : state) : Prop :=
  forall symbol tr,
    trailing_stops (risk_manager s) !! symbol = Some tr ->
    exists tr', trailing_stops (risk_manager s') !! symbol = Some tr'
                /\ stop_price tr <= stop_price tr'.

(** The registry never loses a symbol. *)
Definition registry_grows (s s' : state) : Prop :=
  forall symbol,
    is_Some (open_positions (risk_manager s) !! symbol) ->
    is_Some (open_positions (risk_manager s') !! symbol).

(** Every price history holds at most 1000 samples. *)
Definition histories_capped (s : state) : Prop :=
  forall symbol history,
    price_history (price_analyzer s) !! symbol = Some history ->
    (length history <= 1000)%nat.

(** The cap on the histories is kept. *)
Definition keeps_cap (s s' : state) : Prop :=
  histories_capped s -> histories_capped s'.

(** The same value of a component of the state. *)
Definition keeps {X} (f : state -> X) (s s' : state) : Prop := f s' = f s.

(** The target price of the symbol is NaN. *)
Definition nan_target (s : state) (symbol : string) : Prop :=
  TARGET_PRICES s !! symbol = Some (Some (NpF NaN)).

(** The orders added are stop orders, or orders on other symbols. *)
Definition no_entry_on (symbol : string) (s s' : state) : Prop :=
  forall o, In (futures_create_order o) (sent s') ->
            In (futures_create_order o) (sent s)
            \/ o_type o = "STOP_MARKET"%string \/ o_symbol o <> symbol.

(** The target of the symbol is left alone and no entry is ordered on it. *)
Definition same_target_no_entry (symbol : string) (s s' : state) : Prop :=
  TARGET_PRICES s' !! symbol = TARGET_PRICES s !! symbol /\ no_entry_on symbol s s'.

(** A NaN target stays, and while it is there no entry is ordered. *)
Definition blocked (symbol : string) (s s' : state) : Prop :=
  nan_target s symbol -> nan_target s' symbol /\ no_entry_on symbol s s'.

(** [update_trade_stats] over the results of a sequence of trades. *)
Definition record_trades (pnls : list Q) (st : trade_stats) : trade_stats :=
  foldl (fun st pnl => update_trade_stats pnl st) st pnls.

(** One more alert can be logged while the flag of [BinanceTrader] is down. *)
Definition unset (flag : bool) : nat := if flag then 0%nat else 1%nat.

(** The exchange with another answer to the leverage change. *)
Definition with_leverage (ok : string -> bool) (ex : Exchange) : Exchange :=
  {| account := account ex; leverage_ok := ok; ticker := ticker ex;
     order_book := order_book ex; klines := klines ex; tick_size := tick_size ex;
     order_ok := order_ok ex; open_orders := open_orders ex; cancel_ok := cancel_ok ex |}.

(** A call of [check_price_alerts] on the symbol at a price strictly beyond
    the level of an alert, on the side its direction names. *)
Definition crosses (symbol : string) (level : Q) (direction : string) (op : alert_op)
    : bool :=
  match op with
  | check_alerts sym current_price =>
      String.eqb sym symbol
      && ((String.eqb direction "above" && Qltb level current_price)
          || (String.eqb direction "below" && Qltb current_price level))
  | add_alert _ _ _ _ => false
  end.

(** An alert with its flag set to a value. *)
Definition with_triggered (b : bool) (a : price_alert) : price_alert :=
  {| alert_price := alert_price a; direction := direction a; message := message a;
     triggered := b |}.

(** The cancel requests of [update_stop_loss_order]: one for each live
    stop order of the symbol. *)
Definition stop_cancels (symbol : string) (orders : list (string * Z)) : list request :=
  map (fun o => futures_cancel_order symbol o.2)
      (List.filter (fun o => String.eqb o.1 "STOP_MARKET") orders).

(** The stop order that replaces them. *)
Definition replacement_stop (symbol : string) (position : position) (new_stop_price : Q)
    : order :=
  {| o_symbol := symbol; o_side := stop_order_side_of (side position);
     o_type := "STOP_MARKET"; o_stopPrice := Some new_stop_price;
     o_quantity := quantity position |}.

(** What the first block of the handler writes: the last prices, the
    analyzer, the trailing stops and the alerts. *)
Definition price_record (s : state)
    : gmap string Q * PriceAnalyzer * gmap string trailing
      * gmap string (list price_alert) :=
  (previous_prices s, price_analyzer s, trailing_stops (risk_manager s),
   price_alerts (risk_manager s)).

(** ** The volatility in the words of the specification

    Written from the specification, to be compared with [volatility_of] of
    the code: the log-return between two consecutive prices, the standard
    deviation of a list of numbers (of the population: the mean squared
    deviation is over the number of values), and the formula. *)
Definition log_return (previous current : R) : R := ln (current / previous).

Fixpoint log_returns (prices : list R) : list R :=
  match prices with
  | previous :: (current :: _) as rest =>
      log_return previous current :: log_returns rest
  | _ => []
  end.

Definition mean (xs : list R) : R := (fold_right Rplus 0 xs / INR (length xs))%R.

Definition stdev (xs : list R) : R :=
  sqrt (mean (map (fun x => (x - mean xs) ^ 2) xs))%R.

Definition specified_volatility (prices : list Q) : R :=
  (stdev (log_returns (map Q2R prices)) * sqrt 20 * 100)%R.

(** The handler of a trade up to its target test: the recording block when
    the price is new, then the target of the symbol when it has none. *)
Definition before_entry (ex : Exchange) (msg : socket_message) : py unit :=
  s ← get;
  (if match previous_prices s !! msg_s msg with
      | None => true
      | Some previous => negb (Qeq_bool previous (msg_p msg))
      end
   then
     modify (set_previous_price (msg_s msg) (msg_p msg));;
     update_price_data (msg_s msg) (msg_p msg) (msg_E msg);;
     update_trailing_stop ex (msg_s msg) (msg_p msg);;
     modify_rm (check_price_alerts (msg_s msg) (msg_p msg));;
     partial_close_check (msg_s msg) (msg_p msg)
   else mret tt);;
  s ← get;
  match TARGET_PRICES s !! msg_s msg with
  | Some (Some _) => mret tt
  | _ =>
      t ← determine_target_price ex (msg_s msg);
      modify (set_target_price (msg_s msg) t)
  end.

End Views.

(** * Properties *)

(** ** Arithmetic helpers *)

Ltac qlra := Lqa.lra.

Lemma Qltb_true (x y : Q) : Qltb x y = true <-> x < y.
Proof.
  unfold Qltb. rewrite Qlt_alt. destruct (x ?= y); split; congruence.
Qed.

Lemma Qltb_false (x y : Q) : Qltb x y = false <-> y <= x.
Proof.
  split; intros H.
  - apply Qnot_lt_le. intros Hlt. apply Qltb_true in Hlt. congruence.
  - destruct (Qltb x y) eqn:E; [|reflexivity].
    apply Qltb_true in E. apply Qle_not_lt in H. contradiction.
Qed.

Lemma Qle_bool_false (x y : Q) : Qle_bool x y = false <-> y < x.
Proof.
  split; intros H.
  - apply Qnot_le_lt. intros Hle. apply Qle_bool_iff in Hle. congruence.
  - destruct (Qle_bool x y) eqn:E; [|reflexivity].
    apply Qle_bool_iff in E. apply Qlt_not_le in H. contradiction.
Qed.

Module TradingFacts.
Import RealTrading Views.

(** ** Frame reasoning for the script's monad

    [preserves R m]: running [m] from any state leads to a state related to
    it by [R], whether [m] returns or raises.  [R] is a preorder that does not
    look at the requests sent. *)

Section Preserves.

Variable R : state -> state -> Prop.
Hypothesis R_refl : forall s, R s s.
Hypothesis R_trans : forall a b c, R a b -> R b c -> R a c.

Lemma preserves_ret {A} (a : A) : preserves R (mret a).
Proof. intros s. apply R_refl. Qed.

Lemma preserves_raise {A} (e : exn) : preserves R (@raise A e).
Proof. intros s. apply R_refl. Qed.

Lemma preserves_lift {A} (r : pyres A) : preserves R (lift r).
Proof. intros s. apply R_refl. Qed.

Lemma preserves_get : preserves R get.
Proof. intros s. apply R_refl. Qed.

Lemma preserves_bind {A B} (m : py A) (f : A -> py B) :
  preserves R m -> (forall a, preserves R (f a)) -> preserves R (m ≫= f).
Proof.
  intros Hm Hf s. unfold mbind, py_bind. specialize (Hm s).
  destruct (m s) as [[a|e] s']; simpl in *; [|exact Hm].
  eapply R_trans; [exact Hm | apply Hf].
Qed.

Lemma preserves_try {A} (m h : py A) :
  preserves R m -> preserves R h -> preserves R (try_except m h).
Proof.
  intros Hm Hh s. unfold try_except. specialize (Hm s).
  destruct (m s) as [[a|e] s']; simpl in *; [exact Hm|].
  eapply R_trans; [exact Hm | apply Hh].
Qed.

Lemma preserves_send (r : request) :
  (forall s, R s (add_sent [r] s)) -> preserves R (send r).
Proof. intros H s. apply H. Qed.

Lemma preserves_answer {A} (r : request) (a : option A) :
  (forall s, R s (add_sent [r] s)) -> preserves R (answer r a).
Proof.
  intros H. apply preserves_bind; [apply preserves_send, H|]. intros _.
  destruct a; [apply preserves_ret | apply preserves_raise].
Qed.

Lemma preserves_answer_ok (r : request) (ok : bool) :
  (forall s, R s (add_sent [r] s)) -> preserves R (answer_ok r ok).
Proof.
  intros H. apply preserves_bind; [apply preserves_send, H|]. intros _.
  destruct ok; [apply preserves_ret | apply preserves_raise].
Qed.

Lemma preserves_modify (f : state -> state) :
  (forall s, R s (f s)) -> preserves R (modify f).
Proof. intros Hf s. apply Hf. Qed.

End Preserves.

(** One step of a frame proof: split the action along its structure; [side]
    settles what a request does to the relation. *)
Ltac frame_step Hrefl Htrans side :=
  lazymatch goal with
  | |- preserves _ (mret _) => apply (preserves_ret _ Hrefl)
  | |- preserves _ (raise _) => apply (preserves_raise _ Hrefl)
  | |- preserves _ (lift _) => apply (preserves_lift _ Hrefl)
  | |- preserves _ get => apply (preserves_get _ Hrefl)
  | |- preserves _ (send _) => apply preserves_send; side
  | |- preserves _ (answer _ _) => apply (preserves_answer _ Hrefl Htrans); side
  | |- preserves _ (answer_ok _ _) => apply (preserves_answer_ok _ Hrefl Htrans); side
  | |- preserves _ (create_order _ _) => apply (preserves_answer_ok _ Hrefl Htrans); side
  | |- preserves _ (try_except _ _) => apply (preserves_try _ Htrans)
  | |- preserves _ (modify _) => apply preserves_modify; side
  | |- preserves _ (modify_rm _) => apply preserves_modify; side
  | |- preserves _ (modify_pa _) => apply preserves_modify; side
  | |- preserves _ (set_trailing _ _) => apply preserves_modify; side
  | |- preserves _ (_ ≫= _) => apply (preserves_bind _ Htrans); [|intros ?]
  | |- preserves _ (match ?x with _ => _ end) => destruct x
  | |- preserves _ (let '(_, _) := ?x in _) => destruct x
  end.

(** ** Trailing stop *)

Lemma same_trailing_refl s : same_trailing s s.
Proof. reflexivity. Qed.

Lemma same_trailing_trans a b c : same_trailing a b -> same_trailing b c -> same_trailing a c.
Proof. unfold same_trailing. congruence. Qed.

Lemma same_trailing_sent s r : same_trailing s (add_sent [r] s).
Proof. reflexivity. Qed.

Ltac frame_trailing :=
  repeat frame_step same_trailing_refl same_trailing_trans
    ltac:(intros ?; apply same_trailing_sent).

Lemma cancel_stop_orders_trailing ex symbol orders :
  preserves same_trailing (cancel_stop_orders ex symbol orders).
Proof.
  induction orders as [|[type orderId] rest IH]; simpl.
  - frame_trailing.
  - frame_trailing. exact IH.
Qed.

Lemma update_stop_loss_order_trailing ex symbol new_stop :
  preserves same_trailing (update_stop_loss_order ex symbol new_stop).
Proof.
  unfold update_stop_loss_order. frame_trailing.
  - apply cancel_stop_orders_trailing.
  - apply preserves_modify. reflexivity.
Qed.

Lemma update_trailing_stop_next ex symbol p s :
  let s' := snd (update_trailing_stop ex symbol p s) in
  trailing_stops (risk_manager s') !! symbol
  = next_trailing (open_positions (risk_manager s) !! symbol)
      (trailing_stops (risk_manager s) !! symbol) p.
Proof.
  unfold update_trailing_stop, mbind, py_bind, get. simpl.
  destruct (open_positions (risk_manager s) !! symbol) as [pos|]; simpl; [|reflexivity].
  destruct (trailing_stops (risk_manager s) !! symbol) as [tr|] eqn:Et; simpl.
  - destruct (String.eqb (side pos) "long"); simpl; [|exact Et].
    destruct (Qltb (highest_price tr) p); simpl; [|exact Et].
    destruct (Qltb (stop_price tr) _); simpl.
    + rewrite (update_stop_loss_order_trailing ex symbol _ _). simpl.
      apply lookup_insert_eq.
    + apply lookup_insert_eq.
  - unfold lift, Qdiv_py. destruct (Qeq_bool p 0); simpl; [exact Et|].
    apply lookup_insert_eq.
Qed.

Lemma next_trailing_stop_le pos tr p :
  exists tr', next_trailing pos (Some tr) p = Some tr'
              /\ stop_price tr <= stop_price tr'.
Proof.
  unfold next_trailing. destruct pos as [pos|]; [|eexists; split; [reflexivity|apply Qle_refl]].
  destruct (String.eqb (side pos) "long" && Qltb (highest_price tr) p).
  - eexists; split; [reflexivity|]. simpl.
    destruct (Qltb (stop_price tr) _) eqn:E; [|apply Qle_refl].
    apply Qltb_true in E. apply Qlt_le_weak, E.
  - eexists; split; [reflexivity|apply Qle_refl].
Qed.

(** Over any ticks, a stop that exists stays and does not decrease. *)
Lemma trailing_run_stop_le symbol ticks s a :
  stop_of symbol s = Some a ->
  exists b, stop_of symbol (trailing_run symbol ticks s) = Some b /\ a <= b.
Proof.
  revert s a. induction ticks as [|[ex p] ticks IH]; intros s a Ha.
  - exists a. split; [exact Ha | apply Qle_refl].
  - simpl. unfold stop_of in Ha.
    destruct (trailing_stops (risk_manager s) !! symbol) as [tr|] eqn:Et; [|discriminate].
    injection Ha as <-.
    destruct (next_trailing_stop_le (open_positions (risk_manager s) !! symbol) tr p)
      as (tr' & Hn & Hle).
    destruct (IH (snd (update_trailing_stop ex symbol p s)) (stop_price tr')) as (b & Hb & Hab).
    { unfold stop_of. rewrite (update_trailing_stop_next ex symbol p s), Et, Hn. reflexivity. }
    exists b. split; [exact Hb|]. eapply Qle_trans; eassumption.
Qed.

Lemma same_positions_refl s : same_positions_but_stop s s.
Proof. intros symbol. reflexivity. Qed.

Lemma same_positions_trans a b c :
  same_positions_but_stop a b -> same_positions_but_stop b c ->
  same_positions_but_stop a c.
Proof. intros H1 H2 symbol. rewrite H2. apply H1. Qed.

Lemma same_positions_sent s r : same_positions_but_stop s (add_sent [r] s).
Proof. intros symbol. reflexivity. Qed.

Ltac frame_positions :=
  repeat frame_step same_positions_refl same_positions_trans
    ltac:(intros ?; apply same_positions_sent).

Lemma cancel_stop_orders_positions ex symbol orders :
  preserves same_positions_but_stop (cancel_stop_orders ex symbol orders).
Proof.
  induction orders as [|[type orderId] rest IH]; simpl.
  - frame_positions.
  - frame_positions. exact IH.
Qed.

Lemma update_stop_loss_order_positions ex symbol new_stop :
  preserves same_positions_but_stop (update_stop_loss_order ex symbol new_stop).
Proof.
  unfold update_stop_loss_order. frame_positions.
  - apply cancel_stop_orders_positions.
  - apply preserves_modify. intros s sym. simpl.
    rewrite lookup_alter. case_decide; [subst sym|reflexivity].
    destruct (open_positions (risk_manager s) !! symbol); reflexivity.
Qed.

Lemma update_trailing_stop_positions ex symbol p :
  preserves same_positions_but_stop (update_trailing_stop ex symbol p).
Proof.
  unfold update_trailing_stop, set_trailing. frame_positions;
    try (apply preserves_modify; intros s sym; reflexivity).
  apply update_stop_loss_order_positions.
Qed.

Lemma same_positions_long s s' symbol pos :
  same_positions_but_stop s s' ->
  open_positions (risk_manager s) !! symbol = Some pos -> side pos = "long"%string ->
  exists pos', open_positions (risk_manager s') !! symbol = Some pos'
               /\ side pos' = "long"%string.
Proof.
  intros H Hp Hs. specialize (H symbol). rewrite Hp in H. simpl in H.
  destruct (open_positions (risk_manager s') !! symbol) as [pos'|]; [|discriminate].
  exists pos'. split; [reflexivity|]. simpl in H. injection H as H _ _ _.
  congruence.
Qed.

Lemma next_trailing_init_in_order pos p :
  0 < p -> stop_loss pos <= p ->
  exists tr, next_trailing (Some pos) None p = Some tr
             /\ trailing_in_order tr /\ highest_price tr = p.
Proof.
  intros Hp Hs. unfold next_trailing.
  destruct (Qeq_bool p 0) eqn:E.
  { apply Qeq_bool_iff in E. rewrite E in Hp. discriminate. }
  eexists; split; [reflexivity|]. split; [|reflexivity].
  split; cbn [stop_price highest_price distance_percent]; [exact Hs|].
  apply Qmult_le_0_compat; [|discriminate].
  apply Qmult_le_0_compat; [apply Qabs_nonneg|].
  apply Qlt_le_weak, Qinv_lt_0_compat, Hp.
Qed.

Lemma next_trailing_long_in_order pos tr p :
  side pos = "long"%string -> 0 < p -> trailing_in_order tr ->
  exists tr', next_trailing (Some pos) (Some tr) p = Some tr'
              /\ trailing_in_order tr'
              /\ highest_price tr <= highest_price tr' /\ p <= highest_price tr'.
Proof.
  intros Hside Hp [Hs Hd]. unfold next_trailing. rewrite Hside.
  change (String.eqb "long" "long") with true. cbn [andb].
  destruct (Qltb (highest_price tr) p) eqn:E.
  - apply Qltb_true in E. eexists; split; [reflexivity|].
    unfold trailing_in_order. cbn [stop_price highest_price distance_percent].
    split; [split; [|exact Hd]|split; [apply Qlt_le_weak, E | apply Qle_refl]].
    destruct (Qltb (stop_price tr) _) eqn:E2.
    + assert (H : 0 <= p * (distance_percent tr / 100)).
      { apply Qmult_le_0_compat; [apply Qlt_le_weak, Hp|].
        apply Qmult_le_0_compat; [exact Hd | discriminate]. }
      qlra.
    + qlra.
  - apply Qltb_false in E. eexists; split; [reflexivity|].
    split; [split; assumption|]. split; [apply Qle_refl | exact E].
Qed.

(** From a trailing stop in order, a long position and positive prices: the
    run keeps the stop at or below the highest price, and no tick is above
    the highest price. *)
Lemma trailing_run_in_order symbol ticks s pos tr :
  open_positions (risk_manager s) !! symbol = Some pos -> side pos = "long"%string ->
  trailing_stops (risk_manager s) !! symbol = Some tr -> trailing_in_order tr ->
  (forall ex p, In (ex, p) ticks -> 0 < p) ->
  exists tr', trailing_stops (risk_manager (trailing_run symbol ticks s)) !! symbol = Some tr'
              /\ trailing_in_order tr'
              /\ highest_price tr <= highest_price tr'
              /\ (forall ex p, In (ex, p) ticks -> p <= highest_price tr').
Proof.
  revert s pos tr. induction ticks as [|[ex p] ticks IH]; intros s pos tr Hpos Hside Htr Hin Hp.
  - exists tr. repeat split; try apply Hin; try assumption; [apply Qle_refl|].
    intros ? ? [].
  - simpl.
    destruct (next_trailing_long_in_order pos tr p Hside) as (tr1 & Hn & Hin1 & Hh & Hph);
      [eapply Hp; left; reflexivity | exact Hin |].
    destruct (same_positions_long s _ symbol pos
                (update_trailing_stop_positions ex symbol p s) Hpos Hside)
      as (pos1 & Hpos1 & Hside1).
    destruct (IH (snd (update_trailing_stop ex symbol p s)) pos1 tr1 Hpos1 Hside1)
      as (tr' & Htr' & Hin' & Hh' & Hall); [| exact Hin1 | |].
    { rewrite (update_trailing_stop_next ex symbol p s), Hpos, Htr. exact Hn. }
    { intros ex' p' H. eapply Hp. right. exact H. }
    exists tr'. split; [exact Htr'|]. split; [exact Hin'|].
    split; [eapply Qle_trans; eassumption|].
    intros ex' p' [H|H].
    + injection H as _ <-. eapply Qle_trans; eassumption.
    + eapply Hall, H.
Qed.

(** C3, as the code has it. For every sequence of ticks, a trailing stop
    that exists stays and its stop price never decreases; and for a long
    position whose stop-loss is not above the first tick, with positive
    prices, the stop price never exceeds the highest price recorded, which no
    tick of the sequence exceeds. *)
Theorem trailing_stop_rises_below_highest (symbol : string) :
  (forall ticks s a,
      stop_of symbol s = Some a ->
      exists b, stop_of symbol (trailing_run symbol ticks s) = Some b /\ a <= b)
  /\ (forall ex0 p0 ticks s pos,
        open_positions (risk_manager s) !! symbol = Some pos ->
        side pos = "long"%string ->
        trailing_stops (risk_manager s) !! symbol = None ->
        stop_loss pos <= p0 ->
        (forall ex p, In (ex, p) ((ex0, p0) :: ticks) -> 0 < p) ->
        exists tr,
          trailing_stops (risk_manager (trailing_run symbol ((ex0, p0) :: ticks) s))
            !! symbol = Some tr
          /\ stop_price tr <= highest_price tr
          /\ (forall ex p, In (ex, p) ((ex0, p0) :: ticks) -> p <= highest_price tr)).
Proof.
  split; [intros ticks s a; apply trailing_run_stop_le|].
  intros ex0 p0 ticks s pos Hpos Hside Hnone Hstop Hp.
  destruct (next_trailing_init_in_order pos p0) as (tr0 & Hn & Hin0 & Hh0);
    [eapply Hp; left; reflexivity | exact Hstop |].
  destruct (same_positions_long s _ symbol pos
              (update_trailing_stop_positions ex0 symbol p0 s) Hpos Hside)
    as (pos1 & Hpos1 & Hside1).
  destruct (trailing_run_in_order symbol ticks
              (snd (update_trailing_stop ex0 symbol p0 s)) pos1 tr0 Hpos1 Hside1)
    as (tr & Htr & [Hle _] & Hh & Hall); [| exact Hin0 | |].
  { rewrite (update_trailing_stop_next ex0 symbol p0 s), Hpos, Hnone. exact Hn. }
  { intros ex p H. eapply Hp. right. exact H. }
  exists tr. split; [exact Htr|]. split; [exact Hle|].
  intros ex p [H|H].
  - injection H as _ <-. rewrite <- Hh0. exact Hh.
  - eapply Hall, H.
Qed.

(** The bound on the run 100, 110, 105 of a long position with its stop at 98. *)
Lemma trailing_stop_rises_below_highest_witness :
  exists tr,
    trailing_stops
      (risk_manager
         (trailing_run "BTCUSDT"
            [(Scenario.exchange, 100); (Scenario.exchange, 110); (Scenario.exchange, 105)]
            Scenario.holding)) !! "BTCUSDT"%string = Some tr
    /\ stop_price tr <= highest_price tr
    /\ (forall ex p,
          In (ex, p) [(Scenario.exchange, 100); (Scenario.exchange, 110);
                      (Scenario.exchange, 105)] ->
          p <= highest_price tr).
Proof.
  apply (proj2 (trailing_stop_rises_below_highest "BTCUSDT")
           Scenario.exchange 100 _ Scenario.holding Scenario.long_position).
  - reflexivity.
  - reflexivity.
  - reflexivity.
  - discriminate.
  - intros ex p [H|[H|[H|[]]]]; injection H as _ <-; reflexivity.
Defined.

(** C3, against the claim as stated. Long position, stop-loss 98, ticks 100,
    110, 105: the stop has been raised to 107.8 at 110, and at the tick 105
    it is above the current price. *)
Lemma trailing_stop_above_adverse_tick :
  exists tr,
    trailing_stops
      (risk_manager
         (trailing_run "BTCUSDT"
            [(Scenario.exchange, 100); (Scenario.exchange, 110); (Scenario.exchange, 105)]
            Scenario.holding)) !! "BTCUSDT"%string = Some tr
    /\ stop_price tr == 1078 # 10
    /\ 105 < stop_price tr.
Proof. eexists. split; [vm_compute; reflexivity|]. split; reflexivity. Qed.

(** ** Volatility *)

Lemma np_diff_repeat (c : R) (n : nat) :
  np_diff (repeat c (S n)) = repeat 0%R n.
Proof.
  induction n as [|n IH]; [reflexivity|].
  change (repeat c (S (S n))) with (c :: repeat c (S n)).
  change (np_diff (c :: repeat c (S n)))
    with ((c - c)%R :: np_diff (repeat c (S n))).
  rewrite IH. simpl. f_equal. apply Rminus_diag.
Qed.

Lemma Rsum_repeat_0 (n : nat) : Rsum (repeat 0%R n) = 0%R.
Proof. induction n as [|n IH]; simpl; [reflexivity|]. rewrite IH. apply Rplus_0_l. Qed.

Lemma Rmean_repeat_0 (n : nat) : Rmean (repeat 0%R n) = 0%R.
Proof. unfold Rmean. rewrite Rsum_repeat_0. unfold Rdiv. apply Rmult_0_l. Qed.

Lemma np_std_repeat_0 (n : nat) : np_std (repeat 0%R n) = 0%R.
Proof.
  unfold np_std. rewrite Rmean_repeat_0.
  replace (map (fun x => Rsqr (x - 0)) (repeat 0%R n)) with (repeat 0%R n).
  - rewrite Rmean_repeat_0. apply sqrt_0.
  - induction n as [|n IH]; simpl; [reflexivity|]. rewrite <- IH. f_equal.
    rewrite Rminus_0_r. symmetry. apply Rsqr_0.
Qed.

Lemma map_constant {A B} (f : A -> B) (c : B) (xs : list A) :
  (forall x, In x xs -> f x = c) -> map f xs = repeat c (length xs).
Proof.
  induction xs as [|x xs IH]; intros H; simpl; [reflexivity|].
  rewrite (H x) by (left; reflexivity). f_equal. apply IH.
  intros y Hy. apply H. right. exact Hy.
Qed.

(** A constant series of positive prices has volatility 0. *)
Lemma volatility_of_constant (prices : list Q) (p : Q) :
  0 < p -> (1 <= length prices)%nat -> (forall x, In x prices -> x == p) ->
  volatility_of prices = RFin 0.
Proof.
  intros Hp Hn Hall. unfold volatility_of.
  replace (forallb (Qltb 0) prices) with true.
  2: { symmetry. apply forallb_forall. intros x Hx. apply Qltb_true.
       rewrite (Hall x Hx). exact Hp. }
  rewrite (map_constant _ (ln (Q2R p))).
  2: { intros x Hx. f_equal. apply Qeq_eqR, Hall, Hx. }
  destruct (length prices) as [|n]; [lia|].
  rewrite np_diff_repeat, np_std_repeat_0.
  f_equal. rewrite !Rmult_0_l. reflexivity.
Qed.

Lemma last_n_last {A} (n : nat) (xs : list A) :
  (1 <= n)%nat -> last (last_n n xs) = last xs.
Proof.
  intros Hn. unfold last_n.
  destruct (decide (length xs = 0)%nat) as [E|E].
  - destruct xs; [reflexivity | discriminate].
  - rewrite !last_lookup. rewrite lookup_drop, length_drop. f_equal. lia.
Qed.

Lemma recorded_last symbol p ts s :
  last (recorded symbol p ts s) = Some {| price := p; timestamp := ts |}.
Proof.
  unfold recorded. destruct (1000 <? _)%nat.
  - rewrite last_n_last by lia. apply last_snoc.
  - apply last_snoc.
Qed.

Lemma update_price_data_effect symbol p ts s :
  let s' := snd (update_price_data symbol p ts s) in
  let history := recorded symbol p ts s in
  price_history (price_analyzer s') !! symbol = Some history
  /\ (if (length history <? 20)%nat then
        volatility (price_analyzer s') = volatility (price_analyzer s)
        /\ risk_manager s' = risk_manager s
      else
        let vol := volatility_of (map price (last_n 20 history)) in
        volatility (price_analyzer s') !! symbol = Some vol
        /\ risk_manager s' =
             if above_100 vol
             then add_price_alert symbol p "both" (HighVolatility (reading vol))
                    (risk_manager s)
             else risk_manager s).
Proof.
  unfold update_price_data, _update_volatility, modify_pa, modify_rm, modify, get,
    mbind, py_bind.
  cbn [snd fst price_analyzer set_price_analyzer set_price_history price_history].
  rewrite lookup_insert_eq. fold (recorded symbol p ts s).
  destruct (length (recorded symbol p ts s) <? 20)%nat eqn:E.
  - cbn. split; [apply lookup_insert_eq|]. split; reflexivity.
  - cbn [snd fst].
    set (vol := volatility_of (map price (last_n 20 (recorded symbol p ts s)))).
    assert (Hlast : last (map price (last_n 20 (recorded symbol p ts s))) = Some p).
    { change (map price ?l) with (price <$> l). rewrite fmap_last.
      rewrite last_n_last by lia. rewrite recorded_last. reflexivity. }
    destruct (above_100 vol) eqn:Ev.
    + rewrite Hlast. cbn. split; [apply lookup_insert_eq|].
      split; [apply lookup_insert_eq | reflexivity].
    + cbn. split; [apply lookup_insert_eq|].
      split; [apply lookup_insert_eq | reflexivity].
Qed.

(** *** The code against the formula of the specification *)

Lemma np_diff_log_returns (prices : list R) :
  (forall p, In p prices -> (0 < p)%R) ->
  np_diff (map ln prices) = log_returns prices.
Proof.
  induction prices as [|a [|b rest] IH]; intros Hpos; [reflexivity | reflexivity |].
  change (np_diff (map ln (a :: b :: rest)))
    with ((ln b - ln a)%R :: np_diff (map ln (b :: rest))).
  change (log_returns (a :: b :: rest))
    with (log_return a b :: log_returns (b :: rest)).
  rewrite IH by (intros p Hp; apply Hpos; right; exact Hp).
  f_equal. unfold log_return, Rdiv.
  assert (Ha : (0 < a)%R) by (apply Hpos; left; reflexivity).
  assert (Hb : (0 < b)%R) by (apply Hpos; right; left; reflexivity).
  rewrite ln_mult; [|exact Hb | apply Rinv_0_lt_compat, Ha].
  rewrite ln_Rinv by exact Ha. ring.
Qed.

Lemma np_std_stdev (xs : list R) : np_std xs = stdev xs.
Proof.
  unfold np_std, stdev. f_equal. unfold Rmean, Rsum, mean.
  rewrite !length_map. f_equal. f_equal. apply map_ext. intros x. apply Rsqr_pow2.
Qed.

Lemma Q2R_positive (p : Q) : 0 < p -> (0 < Q2R p)%R.
Proof. intros H. rewrite <- RMicromega.Q2R_0. apply Qlt_Rlt, H. Qed.

Lemma volatility_of_specified (prices : list Q) :
  (forall p, In p prices -> 0 < p) ->
  volatility_of prices = RFin (specified_volatility prices).
Proof.
  intros Hpos. unfold volatility_of, specified_volatility.
  replace (forallb (Qltb 0) prices) with true.
  2: { symmetry. apply forallb_forall. intros p Hin. apply Qltb_true, Hpos, Hin. }
  rewrite np_std_stdev. f_equal. f_equal. f_equal. f_equal.
  rewrite <- np_diff_log_returns.
  - rewrite map_map. reflexivity.
  - intros r Hr. apply in_map_iff in Hr. destruct Hr as (p & <- & Hp).
    apply Q2R_positive, Hpos, Hp.
Qed.

Lemma sum_squared_deviations (m : R) (xs : list R) :
  fold_right Rplus 0%R (map (fun x => (x - m) ^ 2)%R xs)
  = (fold_right Rplus 0 (map (fun x => x ^ 2) xs) - 2 * m * fold_right Rplus 0 xs
     + INR (length xs) * m ^ 2)%R.
Proof.
  induction xs as [|x xs IH].
  - simpl. ring.
  - change (length (x :: xs)) with (S (length xs)). rewrite S_INR.
    cbn [map fold_right]. rewrite IH. ring.
Qed.

Lemma sum_squares_nonneg (f : R -> R) (xs : list R) :
  (0 <= fold_right Rplus 0 (map (fun x => f x ^ 2) xs))%R.
Proof.
  induction xs as [|x xs IH]; cbn [map fold_right]; [apply Rle_refl|].
  apply Rplus_le_le_0_compat; [apply pow2_ge_0 | exact IH].
Qed.

(** The standard deviation is that of the population: its square is the
    mean of the squares less the square of the mean. *)
Lemma stdev_squared (xs : list R) :
  xs <> [] ->
  (stdev xs ^ 2 = mean (map (fun x => x ^ 2) xs) - mean xs ^ 2)%R.
Proof.
  intros Hne. unfold stdev.
  assert (Hn : (0 < INR (length xs))%R).
  { apply lt_0_INR. destruct xs; [contradiction | simpl; lia]. }
  rewrite pow2_sqrt.
  - unfold mean at 1 3. rewrite !length_map, sum_squared_deviations.
    unfold mean. field. apply Rgt_not_eq, Hn.
  - unfold mean at 1. rewrite length_map. apply Rmult_le_pos.
    + apply (sum_squares_nonneg (fun x => x - mean xs)%R).
    + apply Rlt_le, Rinv_0_lt_compat, Hn.
Qed.

(** Twenty prices alternating between 1 and 2: the nineteen returns are
    [ln 2] and [- ln 2] in turn, their mean is [ln 2 / 19], and their
    standard deviation is [ln 2 * sqrt 360 / 19]. *)
Lemma volatility_of_alternating :
  volatility_of Scenario.alternating_prices
  = RFin (ln 2 * sqrt 360 / 19 * sqrt 20 * 100)%R.
Proof.
  rewrite volatility_of_specified.
  2: { intros p Hp. cbv [Scenario.alternating_prices repeat concat app] in Hp.
       repeat (destruct Hp as [<-|Hp]; [reflexivity|]). destruct Hp. }
  f_equal. unfold specified_volatility. f_equal. f_equal.
  assert (E1 : Q2R 1 = 1%R) by (unfold Q2R; simpl; field).
  assert (E2 : Q2R 2 = 2%R) by (unfold Q2R; simpl; field).
  assert (Hup : log_return 1 2 = ln 2) by (unfold log_return; f_equal; field).
  assert (Hdown : log_return 2 1 = (- ln 2)%R).
  { unfold log_return. replace (1 / 2)%R with (/ 2)%R by field.
    apply ln_Rinv. Lra.lra. }
  cbv [Scenario.alternating_prices repeat concat app].
  cbn [map log_returns]. rewrite E1, E2, Hup, Hdown.
  set (L := ln 2).
  assert (HL : (0 <= L)%R).
  { unfold L. rewrite <- ln_1. apply Rlt_le, ln_increasing; Lra.lra. }
  unfold stdev.
  assert (Hm : mean [L; (- L)%R; L; (- L)%R; L; (- L)%R; L; (- L)%R; L; (- L)%R; L;
                     (- L)%R; L; (- L)%R; L; (- L)%R; L; (- L)%R; L] = (L / 19)%R).
  { unfold mean. simpl. field. }
  rewrite Hm.
  match goal with
  | |- sqrt ?v = _ => replace v with (360 * (L / 19 * (L / 19)))%R
  end.
  2: { unfold mean. simpl. field. }
  rewrite sqrt_mult; [|Lra.lra|apply Rle_0_sqr].
  rewrite sqrt_square; [field|].
  apply Rmult_le_pos; [exact HL | Lra.lra].
Qed.

(** C9, as the code has it. Recording a sample leaves the price as the
    last entry of the history. Once the history holds 20 samples the
    volatility of the symbol is recomputed from the last 20 prices; while it
    holds fewer, no volatility is computed and the stored values are left as
    they were. For positive prices the value computed is the one the
    specification words: the standard deviation of the consecutive
    log-returns [ln (current / previous)] times sqrt(20) times 100, where the
    standard deviation is that of the population (its square is the mean of
    the squares less the square of the mean). Twenty prices alternating
    between 1 and 2 give [ln 2 * sqrt 360 / 19 * sqrt 20 * 100]; a constant
    series of positive prices gives 0; and the alerts change only when the
    volatility is above 100, by one alert of direction ['both'] at the
    recorded price. *)
Theorem volatility_on_record :
  (forall symbol p ts s,
      let s' := snd (update_price_data symbol p ts s) in
      exists history,
        price_history (price_analyzer s') !! symbol = Some history
        /\ last history = Some {| price := p; timestamp := ts |}
        /\ ((20 <= length history)%nat ->
            volatility (price_analyzer s') !! symbol
            = Some (volatility_of (map price (last_n 20 history))))
        /\ ((length history < 20)%nat ->
            volatility (price_analyzer s') = volatility (price_analyzer s)))
  /\ (forall prices,
        (forall p, In p prices -> 0 < p) ->
        volatility_of prices = RFin (specified_volatility prices))
  /\ (forall xs : list R,
        xs <> [] ->
        (stdev xs ^ 2 = mean (map (fun x => x ^ 2) xs) - mean xs ^ 2)%R)
  /\ volatility_of Scenario.alternating_prices
     = RFin (ln 2 * sqrt 360 / 19 * sqrt 20 * 100)%R
  /\ (forall prices p,
        0 < p -> (2 <= length prices)%nat -> (forall x, In x prices -> x == p) ->
        volatility_of prices = RFin 0)
  /\ (forall symbol p ts s,
        let s' := snd (update_price_data symbol p ts s) in
        risk_manager s' = risk_manager s
        \/ exists v,
             volatility (price_analyzer s') !! symbol = Some (RFin v)
             /\ (100 < v)%R
             /\ risk_manager s'
                = add_price_alert symbol p "both" (HighVolatility v) (risk_manager s)).
Proof.
  split; [|split; [|split; [|split; [|split]]]].
  - intros symbol p ts s s'.
    destruct (update_price_data_effect symbol p ts s) as [Hh Hv].
    exists (recorded symbol p ts s). split; [exact Hh|].
    split; [apply recorded_last|].
    destruct (length (recorded symbol p ts s) <? 20)%nat eqn:E.
    + apply Nat.ltb_lt in E. split; [lia|]. intros _. apply Hv.
    + apply Nat.ltb_ge in E. split; [intros _; apply Hv | lia].
  - apply volatility_of_specified.
  - apply stdev_squared.
  - apply volatility_of_alternating.
  - intros prices p Hp Hn Hall. apply (volatility_of_constant prices p); [exact Hp | lia | exact Hall].
  - intros symbol p ts s s'.
    destruct (update_price_data_effect symbol p ts s) as [_ Hv].
    destruct (length (recorded symbol p ts s) <? 20)%nat; [left; apply Hv|].
    destruct Hv as [Hvol Hrm]. fold s' in Hvol, Hrm.
    destruct (volatility_of _) as [v|] eqn:Ev; simpl in Hrm; [|left; exact Hrm].
    destruct (Rlt_dec 100 v) as [Hgt|]; [|left; exact Hrm].
    right. exists v. repeat split; assumption.
Qed.

(** The formula on the twenty alternating prices. *)
Lemma volatility_on_record_witness :
  volatility_of Scenario.alternating_prices
  = RFin (specified_volatility Scenario.alternating_prices).
Proof.
  apply (proj1 (proj2 volatility_on_record) Scenario.alternating_prices).
  intros p Hp. cbv [Scenario.alternating_prices repeat concat app] in Hp.
  repeat (destruct Hp as [<-|Hp]; [reflexivity|]). destruct Hp.
Defined.

(** The first sample of a symbol is recorded and no volatility is computed
    for it. *)
Lemma no_volatility_on_first_sample :
  let s' := snd (update_price_data "BTCUSDT" 100 0 Scenario.fresh) in
  price_history (price_analyzer s') !! "BTCUSDT"%string
  = Some [ {| price := 100; timestamp := 0 |} ]
  /\ volatility (price_analyzer s') !! "BTCUSDT"%string = None.
Proof. split; reflexivity. Qed.

(** ** The partial-close ladder *)

Lemma partial_close_loop_spec symbol pos pnl levels s :
  partial_close_loop symbol pos pnl levels s =
    match first_level_met pnl levels with
    | Some _ => (Raise (AttributeError "partial_close_position"), s)
    | None => (Ok tt, s)
    end.
Proof.
  induction levels as [|l rest IH]; simpl; [reflexivity|].
  destruct (Qle_bool (profit l) pnl); [reflexivity | exact IH].
Qed.

(** The levels are in ascending order of profit, so whenever any level is
    met the loop stops at the first one. *)
Lemma first_level_met_is_first pnl l :
  first_level_met pnl PARTIAL_CLOSE_LEVELS = Some l ->
  l = {| profit := 1; close_percent := 3 # 10 |}.
Proof.
  unfold PARTIAL_CLOSE_LEVELS. cbn [first_level_met profit].
  destruct (Qle_bool 1 pnl) eqn:E1; [congruence|].
  apply Qle_bool_false in E1.
  destruct (Qle_bool (3 # 2) pnl) eqn:E2.
  { apply Qle_bool_iff in E2. exfalso. qlra. }
  destruct (Qle_bool 2 pnl) eqn:E3; [|discriminate].
  apply Qle_bool_iff in E3. exfalso. qlra.
Qed.

Lemma try_except_unit (m : py unit) (s : state) :
  fst (try_except m (mret tt) s) = Ok tt.
Proof.
  unfold try_except. destruct (m s) as [[[]|e] s']; reflexivity.
Qed.

Lemma run_ok {A} (m : py A) (a : A) (s : state) :
  fst (m s) = Ok a -> m s = (Ok a, snd (m s)).
Proof. destruct (m s); simpl; congruence. Qed.

Lemma update_price_data_ok symbol p ts s :
  fst (update_price_data symbol p ts s) = Ok tt.
Proof.
  unfold update_price_data, _update_volatility, modify_pa, modify_rm, modify, get,
    mbind, py_bind.
  cbn [snd fst price_analyzer set_price_analyzer set_price_history price_history].
  rewrite lookup_insert_eq. fold (recorded symbol p ts s).
  destruct (length (recorded symbol p ts s) <? 20)%nat; [reflexivity|].
  cbn [snd fst].
  destruct (above_100 _); [|reflexivity].
  change (map price ?l) with (price <$> l). rewrite fmap_last.
  rewrite last_n_last by lia. rewrite recorded_last. reflexivity.
Qed.

Lemma update_trailing_stop_ok ex symbol p s :
  Qeq_bool p 0 = false -> fst (update_trailing_stop ex symbol p s) = Ok tt.
Proof.
  intros Hp. unfold update_trailing_stop, mbind, py_bind, get. cbn [fst snd].
  destruct (open_positions (risk_manager s) !! symbol) as [pos|]; [|reflexivity].
  destruct (trailing_stops (risk_manager s) !! symbol) as [tr|].
  - destruct (String.eqb (side pos) "long"); [|reflexivity].
    destruct (Qltb (highest_price tr) p); [|reflexivity].
    destruct (Qltb (stop_price tr) _); [|reflexivity].
    cbn. apply try_except_unit.
  - unfold lift, Qdiv_py. rewrite Hp. reflexivity.
Qed.

Lemma only_stop_orders_refl s : only_stop_orders s s.
Proof. intros o H. left. exact H. Qed.

Lemma only_stop_orders_trans a b c :
  only_stop_orders a b -> only_stop_orders b c -> only_stop_orders a c.
Proof.
  intros H1 H2 o H. destruct (H2 o H) as [H'|H']; [apply H1, H' | right; exact H'].
Qed.

Ltac stop_orders_side :=
  solve [ intros ? ? H; simpl in H; first
            [ left; exact H
            | apply in_app_or in H; destruct H as [H|[H|[]]];
              [ left; exact H
              | first [ discriminate H | injection H as <-; right; reflexivity ] ] ] ].

Ltac frame_stop_orders :=
  repeat frame_step only_stop_orders_refl only_stop_orders_trans stop_orders_side.

Lemma cancel_stop_orders_orders ex symbol orders :
  preserves only_stop_orders (cancel_stop_orders ex symbol orders).
Proof.
  induction orders as [|[type orderId] rest IH]; simpl.
  - frame_stop_orders.
  - frame_stop_orders. exact IH.
Qed.

Lemma update_trailing_stop_orders ex symbol p :
  preserves only_stop_orders (update_trailing_stop ex symbol p).
Proof.
  unfold update_trailing_stop, update_stop_loss_order. frame_stop_orders.
  apply cancel_stop_orders_orders.
Qed.

Lemma update_price_data_orders symbol p ts :
  preserves only_stop_orders (update_price_data symbol p ts).
Proof. unfold update_price_data, _update_volatility. frame_stop_orders. Qed.

Lemma update_price_data_positions symbol p ts :
  preserves same_positions_but_stop (update_price_data symbol p ts).
Proof.
  unfold update_price_data, _update_volatility.
  repeat frame_step same_positions_refl same_positions_trans
    ltac:(solve [intros ? ?; reflexivity]).
Qed.

Lemma before_partial_close_ok ex msg s :
  Qeq_bool (msg_p msg) 0 = false -> fst (before_partial_close ex msg s) = Ok tt.
Proof.
  intros Hp. unfold before_partial_close.
  unfold mbind at 1, py_bind at 1. cbn [modify].
  unfold mbind at 1, py_bind at 1.
  rewrite (run_ok _ _ _ (update_price_data_ok _ _ _ _)).
  unfold mbind at 1, py_bind at 1.
  rewrite (run_ok _ _ _ (update_trailing_stop_ok ex _ _ _ Hp)).
  reflexivity.
Qed.

Lemma before_partial_close_positions ex msg :
  preserves same_positions_but_stop (before_partial_close ex msg).
Proof.
  unfold before_partial_close.
  repeat frame_step same_positions_refl same_positions_trans
    ltac:(solve [intros ? ?; reflexivity]).
  - apply update_price_data_positions.
  - apply update_trailing_stop_positions.
  - apply preserves_modify. intros s0 sym. unfold check_price_alerts. simpl.
    destruct (price_alerts (risk_manager s0) !! msg_s msg); reflexivity.
Qed.

Lemma before_partial_close_orders ex msg :
  preserves only_stop_orders (before_partial_close ex msg).
Proof.
  unfold before_partial_close. frame_stop_orders.
  - apply update_price_data_orders.
  - apply update_trailing_stop_orders.
Qed.

Lemma pnl_percent_of_erased pos pos' p :
  set_stop_loss 0 pos' = set_stop_loss 0 pos ->
  pnl_percent_of pos' p = pnl_percent_of pos p /\ quantity pos' = quantity pos.
Proof.
  unfold set_stop_loss. intros H. injection H as Hs Hq He _.
  unfold pnl_percent_of. rewrite Hs, He. split; [reflexivity | exact Hq].
Qed.

(** The partial-close check of the handler, when a level is met. *)
Lemma partial_close_check_raises symbol p s pos pnl l :
  open_positions (risk_manager s) !! symbol = Some pos ->
  pnl_percent_of pos p = Ok pnl ->
  first_level_met pnl PARTIAL_CLOSE_LEVELS = Some l ->
  partial_close_check symbol p s = (Raise (AttributeError "partial_close_position"), s).
Proof.
  intros Hpos Hpnl Hl. unfold partial_close_check, mbind, py_bind, get.
  rewrite Hpos. unfold lift. rewrite Hpnl.
  rewrite partial_close_loop_spec, Hl. reflexivity.
Qed.

(** C2. Whenever a level of the ladder is met for an open position, the
    partial-close check raises [AttributeError] for the missing
    [partial_close_position] and leaves the globals and the requests sent as
    they were; when the handler reaches the check (a trade at a new, non-zero
    price), its body raises that exception, the handler returns normally with
    the state at that point, the quantity of the position is what it was, and
    the only orders placed during the message are stop orders (the
    trailing-stop replacement). *)
Theorem ladder_raises_and_is_absorbed (ex : Exchange) (msg : socket_message) (s : state)
    (pos : position) (pnl : Q) (l : level) :
  open_positions (risk_manager s) !! msg_s msg = Some pos ->
  pnl_percent_of pos (msg_p msg) = Ok pnl ->
  first_level_met pnl PARTIAL_CLOSE_LEVELS = Some l ->
  partial_close_check (msg_s msg) (msg_p msg) s
    = (Raise (AttributeError "partial_close_position"), s)
  /\ (msg_e msg = "aggTrade"%string ->
      price_is_new s (msg_s msg) (msg_p msg) = true ->
      Qeq_bool (msg_p msg) 0 = false ->
      exists s',
        handle_body ex msg s = (Raise (AttributeError "partial_close_position"), s')
        /\ handle_socket_message ex msg s = (Ok tt, s')
        /\ quantity <$> open_positions (risk_manager s') !! msg_s msg
           = Some (quantity pos)
        /\ only_stop_orders s s').
Proof.
  intros Hpos Hpnl Hl.
  split; [eapply partial_close_check_raises; eassumption|].
  intros He Hnew Hp.
  set (s1 := snd (before_partial_close ex msg s)).
  assert (Hrun : before_partial_close ex msg s = (Ok tt, s1))
    by (apply run_ok, before_partial_close_ok, Hp).
  pose proof (before_partial_close_positions ex msg s (msg_s msg)) as Hsame.
  fold s1 in Hsame. rewrite Hpos in Hsame.
  destruct (open_positions (risk_manager s1) !! msg_s msg) as [pos1|] eqn:Hpos1;
    [|discriminate].
  assert (Herased : set_stop_loss 0 pos1 = set_stop_loss 0 pos)
    by (cbv [fmap option_fmap option_map] in Hsame; congruence).
  destruct (pnl_percent_of_erased pos pos1 (msg_p msg) Herased) as [Hpnl1 Hq1].
  assert (Hbody : handle_body ex msg s
                  = (Raise (AttributeError "partial_close_position"), s1)).
  { unfold handle_body. rewrite He. change (String.eqb "aggTrade" "aggTrade") with true.
    cbv iota. unfold mbind at 1, py_bind at 1, get at 1.
    fold (price_is_new s (msg_s msg) (msg_p msg)). rewrite Hnew.
    unfold mbind at 1, py_bind at 1.
    assert (Hblock :
      (modify (set_previous_price (msg_s msg) (msg_p msg));;
       update_price_data (msg_s msg) (msg_p msg) (msg_E msg);;
       update_trailing_stop ex (msg_s msg) (msg_p msg);;
       modify_rm (check_price_alerts (msg_s msg) (msg_p msg));;
       partial_close_check (msg_s msg) (msg_p msg)) s
      = (Raise (AttributeError "partial_close_position"), s1)).
    { revert Hrun. unfold before_partial_close, mbind, py_bind.
      cbn [modify].
      destruct (update_price_data _ _ _ _) as [[[]|e1] t1]; [|discriminate].
      destruct (update_trailing_stop _ _ _ _) as [[[]|e2] t2]; [|discriminate].
      unfold modify_rm, modify. intros H. injection H as H.
      rewrite H.
      apply (partial_close_check_raises _ _ s1 pos1 pnl l Hpos1);
        [rewrite Hpnl1; exact Hpnl | exact Hl]. }
    rewrite Hblock. reflexivity. }
  exists s1. split; [exact Hbody|]. split.
  - unfold handle_socket_message, try_except. rewrite Hbody. reflexivity.
  - split; [rewrite Hpos1; simpl; rewrite Hq1; reflexivity|].
    apply before_partial_close_orders.
Qed.

(** ** The checks before an entry *)

Lemma add_sent_add_sent r1 r2 s : add_sent r2 (add_sent r1 s) = add_sent (r1 ++ r2) s.
Proof. unfold add_sent. simpl. rewrite app_assoc. reflexivity. Qed.

Lemma add_sent_nil s : add_sent [] s = s.
Proof. destruct s. unfold add_sent. simpl. rewrite app_nil_r. reflexivity. Qed.

Lemma Qltb_negb_le (x y : Q) : Qltb x y = negb (Qle_bool y x).
Proof.
  destruct (Qle_bool y x) eqn:E; simpl.
  - apply Qltb_false. apply Qle_bool_iff, E.
  - apply Qltb_true. apply Qle_bool_false, E.
Qed.

Ltac unfold_run :=
  unfold answer, answer_ok, try_except, mbind, py_bind, mret, py_ret, get, lift, raise,
    send, modify, Qdiv_py, first_item.

Ltac reduce_run :=
  cbv beta iota; cbn [fst snd negb andb].

Lemma check_margin_usage_table ex s :
  check_margin_usage ex s = (Ok (margin_ok ex), add_sent [futures_account] s).
Proof.
  unfold check_margin_usage, margin_ok. unfold_run.
  destruct (account ex) as [[m w]|]; reduce_run; [|reflexivity].
  destruct (Qeq_bool w 0); reflexivity.
Qed.

Lemma set_leverage_table ex symbol s :
  set_leverage ex symbol s
  = (Ok tt, add_sent [futures_change_leverage symbol LEVERAGE] s).
Proof.
  unfold set_leverage. unfold_run. destruct (leverage_ok ex symbol); reflexivity.
Qed.

Lemma check_entry_conditions_table ex symbol price s :
  check_entry_conditions ex symbol price s
  = (Ok (count_ok s && volume_ok ex symbol && spread_ok ex symbol),
     add_sent (conditions_requests ex s symbol) s).
Proof.
  unfold check_entry_conditions, conditions_requests, count_ok, volume_ok, spread_ok.
  unfold_run. rewrite Nat.leb_antisym.
  destruct (size (open_positions (risk_manager s)) <? MAX_POSITIONS)%nat; reduce_run.
  2: { rewrite add_sent_nil. reflexivity. }
  destruct (ticker ex symbol) as [[v l]|]; reduce_run; [|reflexivity].
  rewrite Qltb_negb_le.
  destruct (Qle_bool MIN_VOLUME_USD (v * l)); reduce_run; [|reflexivity].
  assert (Hs : forall t : state,
    {| previous_prices := previous_prices (add_sent [futures_ticker symbol] t);
       TARGET_PRICES := TARGET_PRICES (add_sent [futures_ticker symbol] t);
       risk_manager := risk_manager (add_sent [futures_ticker symbol] t);
       price_analyzer := price_analyzer (add_sent [futures_ticker symbol] t);
       sent := sent (add_sent [futures_ticker symbol] t) ++ [futures_order_book symbol] |}
    = add_sent [futures_ticker symbol; futures_order_book symbol] t).
  { intros t. unfold add_sent. simpl. rewrite <- app_assoc. reflexivity. }
  fold (add_sent [futures_ticker symbol] s). rewrite Hs.
  destruct (order_book ex symbol) as [[asks bids]|]; reduce_run; [|reflexivity].
  destruct asks as [|ask asks]; reduce_run; [reflexivity|].
  destruct bids as [|bid bids]; reduce_run; [reflexivity|].
  destruct (Qeq_bool bid 0); reduce_run; [reflexivity|].
  rewrite Qltb_negb_le.
  destruct (Qle_bool ((ask - bid) / bid * 100) MAX_SPREAD_PERCENT); reflexivity.
Qed.

Lemma count_ok_add_sent r s : count_ok (add_sent r s) = count_ok s.
Proof. reflexivity. Qed.

Lemma position_checks_table ex symbol price s :
  position_checks ex symbol price s
  = (Ok (margin_ok ex && count_ok s && volume_ok ex symbol && spread_ok ex symbol),
     add_sent (checks_requests ex s symbol) s).
Proof.
  unfold position_checks, checks_requests.
  unfold mbind at 1, py_bind at 1. rewrite check_margin_usage_table.
  destruct (margin_ok ex); reduce_run; [|reflexivity].
  unfold mbind at 1, py_bind at 1. rewrite set_leverage_table.
  rewrite check_entry_conditions_table, !add_sent_add_sent.
  unfold conditions_requests. rewrite !count_ok_add_sent.
  destruct (count_ok s); reduce_run; [|reflexivity].
  destruct (volume_ok ex symbol); reflexivity.
Qed.

(** The gate of the code: the verdict is the conjunction of the five tests,
    and the requests are those of the tests run in the code's order up to the
    first that fails. *)
Lemma entry_gate_table ex symbol price s :
  entry_gate ex symbol price s
  = (Ok (volatility_ok s symbol && margin_ok ex && count_ok s
         && volume_ok ex symbol && spread_ok ex symbol),
     add_sent (gate_requests ex s symbol) s).
Proof.
  unfold entry_gate, gate_requests, volatility_ok, mbind, py_bind, get.
  destruct (volatility_blocks s symbol); reduce_run.
  - rewrite add_sent_nil. reflexivity.
  - rewrite position_checks_table. reflexivity.
Qed.

(** [open_position] sizes and places orders exactly when its checks pass,
    from the state they leave. *)
Lemma open_position_after_checks ex symbol side price s :
  open_position ex symbol side price s
  = match position_checks ex symbol price s with
    | (Ok true, s1) => try_except (place_orders ex symbol side price) (mret tt) s1
    | (_, s1) => (Ok tt, s1)
    end.
Proof.
  unfold open_position, position_checks, try_except, mbind, py_bind.
  destruct (check_margin_usage ex s) as [[[|]|e] s1]; reduce_run; try reflexivity.
  destruct (set_leverage ex symbol s1) as [[[]|e] s2]; reduce_run; try reflexivity.
  destruct (check_entry_conditions ex symbol price s2) as [[[|]|e] s3];
    reduce_run; reflexivity.
Qed.



(** The body of the handler of a trade is its first part, then the target
    test and the entry. *)
Lemma handle_body_entry ex msg s :
  msg_e msg = "aggTrade"%string ->
  handle_body ex msg s
  = match before_entry ex msg s with
    | (Ok _, s1) =>
        if target_reached (mjoin (TARGET_PRICES s1 !! msg_s msg)) (msg_p msg) then
          if volatility_blocks s1 (msg_s msg) then (Ok tt, s1)
          else (open_position ex (msg_s msg) "long" (msg_p msg);;
                liquidation_check (msg_s msg) (msg_p msg)) s1
        else liquidation_check (msg_s msg) (msg_p msg) s1
    | (Raise e, s1) => (Raise e, s1)
    end.
Proof.
  intros He. unfold handle_body, before_entry. rewrite He.
  change (String.eqb "aggTrade" "aggTrade") with true. cbv iota zeta.
  unfold mbind, py_bind, get. cbv beta iota.
  match goal with
  | |- match ?x with _ => _ end = _ => destruct x as [[a|e] s0]
  end; [|reflexivity].
  match goal with
  | |- match ?x with _ => _ end = _ => destruct x as [[b|e] s1]
  end; [|reflexivity].
  destruct (target_reached _ _); [|reflexivity].
  destruct (volatility_blocks _ _); reflexivity.
Qed.

(** C4, as the code has it. An entry goes through the five tests in the
    order volatility (if known) <= 100, margin ratio <= 0.8 (followed by the
    leverage request), open positions < [MAX_POSITIONS], 24h volume in quote
    currency >= [MIN_VOLUME_USD], spread <= [MAX_SPREAD_PERCENT]; the verdict
    is their conjunction, a request that fails counts as a failed test, the
    requests sent stop at the first test that fails, and [open_position]
    goes on to place orders exactly when the verdict is true. In the handler
    of a trade, once the part before the target test has returned and the
    target is reached, what follows is that gate from the state at that
    point: nothing more is done, and nothing requested, when the volatility
    test fails; the liquidation check alone follows when a later test fails;
    the orders and then the liquidation check when the verdict is true. *)
Theorem entry_checks_in_code_order (ex : Exchange) (symbol : string) (price : Q)
    (s : state) :
  entry_gate ex symbol price s
  = (Ok (volatility_ok s symbol && margin_ok ex && count_ok s
         && volume_ok ex symbol && spread_ok ex symbol),
     add_sent (gate_requests ex s symbol) s)
  /\ (forall side,
        (if volatility_blocks s symbol then mret tt
         else open_position ex symbol side price) s
        = match entry_gate ex symbol price s with
          | (Ok true, s1) => try_except (place_orders ex symbol side price) (mret tt) s1
          | (_, s1) => (Ok tt, s1)
          end)
  /\ (forall msg s0,
        msg_e msg = "aggTrade"%string ->
        handle_body ex msg s0
        = match before_entry ex msg s0 with
          | (Ok _, s1) =>
              if target_reached (mjoin (TARGET_PRICES s1 !! msg_s msg)) (msg_p msg)
              then
                match entry_gate ex (msg_s msg) (msg_p msg) s1 with
                | (Ok true, s2) =>
                    (try_except (place_orders ex (msg_s msg) "long" (msg_p msg))
                       (mret tt);;
                     liquidation_check (msg_s msg) (msg_p msg)) s2
                | (_, s2) =>
                    if volatility_blocks s1 (msg_s msg) then (Ok tt, s2)
                    else liquidation_check (msg_s msg) (msg_p msg) s2
                end
              else liquidation_check (msg_s msg) (msg_p msg) s1
          | (Raise e, s1) => (Raise e, s1)
          end).
Proof.
  split; [apply entry_gate_table|]. split.
  - intros side. unfold entry_gate, mbind, py_bind, get.
    destruct (volatility_blocks s symbol); [reflexivity|].
    rewrite open_position_after_checks.
    destruct (position_checks ex symbol price s) as [[[|]|e] s1]; reflexivity.
  - intros msg s0 He. rewrite (handle_body_entry ex msg s0 He).
    destruct (before_entry ex msg s0) as [[[]|e] s1]; [|reflexivity].
    destruct (target_reached _ _); [|reflexivity].
    unfold entry_gate. unfold mbind at 2, py_bind at 2, get.  cbv beta iota.
    destruct (volatility_blocks s1 (msg_s msg)); [reflexivity|].
    unfold mbind at 1, py_bind at 1. rewrite open_position_after_checks.
    destruct (position_checks ex (msg_s msg) (msg_p msg) s1) as [[[|]|e] s2];
      reflexivity.
Qed.

(** C4, against the claim as stated. With three positions open, the order of
    the specification rejects on the position count without a request; the
    code rejects too, but only after it has fetched the account for the margin
    test and sent the leverage request. *)
Lemma entry_checks_not_in_specified_order :
  can_enter_as_specified Scenario.exchange "BTCUSDT" 100 Scenario.full
  = (Ok false, Scenario.full)
  /\ fst (entry_gate Scenario.exchange "BTCUSDT" 100 Scenario.full) = Ok false
  /\ sent (snd (entry_gate Scenario.exchange "BTCUSDT" 100 Scenario.full))
     = [futures_account; futures_change_leverage "BTCUSDT" LEVERAGE].
Proof. repeat split; vm_compute; reflexivity. Qed.

(** ** Orders and the registry *)

Ltac in_requests H :=
  repeat (apply in_app_or in H; destruct H as [H|H]);
  repeat (simpl in H; destruct H as [H|H]);
  try contradiction; try discriminate H.

Lemma answer_run {A} (r : request) (a : option A) (s : state) :
  answer r a s
  = (match a with Some x => Ok x | None => Raise BinanceAPIException end,
     add_sent [r] s).
Proof. unfold answer. unfold_run. destruct a; reflexivity. Qed.

Lemma create_order_run ex (o : order) (s : state) :
  create_order ex o s
  = (if order_ok ex o then Ok tt else Raise BinanceAPIException,
     add_sent [futures_create_order o] s).
Proof. unfold create_order. unfold_run. destruct (order_ok ex o); reflexivity. Qed.

Lemma get_futures_klines_run ex symbol s :
  get_futures_klines ex symbol s = (Ok (klines ex symbol), add_sent [futures_klines symbol] s).
Proof. reflexivity. Qed.

Lemma get_tick_size_run ex symbol s :
  get_tick_size ex symbol s = (Ok (tick_size ex symbol), add_sent [futures_exchange_info] s).
Proof. reflexivity. Qed.

Lemma lift_run {A} (r : pyres A) (s : state) : lift r s = (r, s).
Proof. reflexivity. Qed.

(** One step of a run: the first bind of the goal, with the equation [E] of
    its first action. *)
Ltac run_step E :=
  unfold mbind at 1, py_bind at 1; rewrite E; cbv beta iota.

Ltac sent_split :=
  rewrite ?add_sent_add_sent; cbn [sent add_sent snd fst app].

(** A leaf of the run where the body has raised; [tac] shows that the entry
    was filled before any protective order. *)
Ltac raised_leaf tac :=
  intros Hrun; injection Hrun as <- <-; eexists; sent_split;
  split; [reflexivity|]; split; [intros Hr; discriminate Hr|];
  split; [intros _; reflexivity | tac].

Lemma place_orders_registry ex symbol side price s r s' :
  place_orders ex symbol side price s = (r, s') ->
  exists new,
    sent s' = sent s ++ new
    /\ (r = Ok tt -> all_accepted ex new)
    /\ (r <> Ok tt -> risk_manager s' = risk_manager s)
    /\ entry_filled_first ex new.
Proof.
  unfold place_orders.
  run_step (answer_run futures_account (account ex) s).
  destruct (account ex) as [acc|].
  2: raised_leaf ltac:(intros o H Ht; in_requests H).
  run_step get_futures_klines_run.
  destruct (calculate_dynamic_stops (klines ex symbol)) as [sl tp].
  run_step (lift_run (py_div sl (PyF 100))).
  destruct (py_div sl (PyF 100)) as [ds|e].
  2: raised_leaf ltac:(intros o H Ht; in_requests H).
  run_step (lift_run (py_div tp (PyF 100))).
  destruct (py_div tp (PyF 100)) as [dt|e].
  2: raised_leaf ltac:(intros o H Ht; in_requests H).
  unfold mbind at 1, py_bind at 1. rewrite lift_run.
  destruct (calculate_position_size _ _ _) as [q|e]; cbv beta iota.
  2: raised_leaf ltac:(intros o H Ht; in_requests H).
  set (quantity := validate_position_size q (PyF acc.2)).
  set (market := {| o_symbol := symbol; o_side := order_side_of side;
                    o_type := "MARKET"; o_stopPrice := None;
                    o_quantity := quantity |}).
  run_step create_order_run.
  destruct (order_ok ex market) eqn:Hmarket.
  2: raised_leaf ltac:(intros o H Ht; in_requests H; injection H as <-;
                       contradiction Ht; reflexivity).
  assert (Hfilled : forall new, In (futures_create_order market) new ->
                                entry_filled_first ex new).
  { intros new Hin o _ _. exists market. repeat split; assumption. }
  run_step get_tick_size_run.
  unfold mbind at 1, py_bind at 1. rewrite lift_run.
  destruct (round_price _ (tick_size ex symbol)) as [slp|e]; cbv beta iota.
  2: raised_leaf ltac:(apply Hfilled; simpl; auto).
  unfold mbind at 1, py_bind at 1. rewrite lift_run.
  destruct (round_price _ (tick_size ex symbol)) as [tpp|e]; cbv beta iota.
  2: raised_leaf ltac:(apply Hfilled; simpl; auto).
  set (stop := {| o_symbol := symbol; o_side := stop_order_side_of side;
                  o_type := "STOP_MARKET"; o_stopPrice := Some slp;
                  o_quantity := quantity |}).
  set (target := {| o_symbol := symbol; o_side := stop_order_side_of side;
                    o_type := "TAKE_PROFIT_MARKET"; o_stopPrice := Some tpp;
                    o_quantity := quantity |}).
  run_step create_order_run.
  destruct (order_ok ex stop) eqn:Hstop.
  2: raised_leaf ltac:(apply Hfilled; simpl; auto).
  run_step create_order_run.
  destruct (order_ok ex target) eqn:Htarget.
  2: raised_leaf ltac:(apply Hfilled; simpl; auto).
  unfold modify_rm, modify.
  intros Hrun; injection Hrun as <- <-; eexists; sent_split.
  split; [reflexivity|]. split; [|split; [intros Hr; contradiction Hr; reflexivity|]].
  - intros _ o H. in_requests H; injection H as <-; assumption.
  - apply Hfilled. simpl. auto.
Qed.

Lemma checks_requests_no_order ex s symbol o :
  ~ In (futures_create_order o) (checks_requests ex s symbol).
Proof.
  unfold checks_requests. intros H.
  destruct (negb (margin_ok ex)); [in_requests H|].
  destruct (negb (count_ok s)); [in_requests H|].
  destruct (negb (volume_ok ex symbol)); in_requests H.
Qed.

(** C8, as the code has it. [open_position] always returns; and when a
    protective order (stop-loss or take-profit) it has sent is refused, a
    market order was sent and accepted before it, and the registry (with the
    rest of the risk manager) is what it was before the call: the position is
    not recorded. *)
Theorem protective_failure_not_recorded (ex : Exchange) (symbol side : string)
    (price : Q) (s : state) :
  let s' := snd (open_position ex symbol side price s) in
  fst (open_position ex symbol side price s) = Ok tt
  /\ exists new,
       sent s' = sent s ++ new
       /\ forall o,
            In (futures_create_order o) new ->
            o_type o = "STOP_MARKET"%string \/ o_type o = "TAKE_PROFIT_MARKET"%string ->
            order_ok ex o = false ->
            risk_manager s' = risk_manager s
            /\ exists m, In (futures_create_order m) new
                         /\ o_type m = "MARKET"%string /\ order_ok ex m = true.
Proof.
  cbv zeta. rewrite open_position_after_checks, position_checks_table.
  set (s1 := add_sent (checks_requests ex s symbol) s).
  destruct (margin_ok ex && count_ok s && volume_ok ex symbol && spread_ok ex symbol).
  2: { split; [reflexivity|]. exists (checks_requests ex s symbol).
       split; [reflexivity|]. intros o H _ _.
       exfalso. eapply checks_requests_no_order, H. }
  unfold try_except.
  destruct (place_orders ex symbol side price s1) as [r s2] eqn:Hrun.
  destruct (place_orders_registry ex symbol side price s1 r s2 Hrun)
    as (new & Hsent & Hok & Hraise & Hfirst).
  assert (Hres : (match r with Ok a => (Ok a, s2) | Raise _ => (mret tt : py unit) s2 end)
                 = (Ok tt, s2)) by (destruct r as [[]|e]; reflexivity).
  rewrite Hres. split; [reflexivity|].
  exists (checks_requests ex s symbol ++ new). cbn [snd].
  split; [rewrite Hsent; unfold s1; simpl; symmetry; apply app_assoc|].
  intros o Hin Htype Hrefused.
  apply in_app_or in Hin. destruct Hin as [Hin|Hin];
    [exfalso; eapply checks_requests_no_order, Hin|].
  split.
  - destruct r as [[]|e].
    + rewrite (Hok eq_refl o Hin) in Hrefused. discriminate.
    + apply Hraise. discriminate.
  - destruct (Hfirst o Hin) as (m & Hm & Hmt & Hmo).
    { destruct Htype as [-> | ->]; discriminate. }
    exists m. split; [apply in_or_app; right; exact Hm|]. split; assumption.
Qed.

(** C8, against the claim as stated. Nothing open, the exchange accepts the
    market order and refuses the stop-loss: the entry is filled, the stop is
    not placed, and no position is recorded for the symbol. *)
Lemma unprotected_position_not_in_registry :
  placed Scenario.exchange_refusing_stop "MARKET" true
    (sent (snd (open_position Scenario.exchange_refusing_stop "BTCUSDT" "long" 100
                  Scenario.flat))) = true
  /\ placed Scenario.exchange_refusing_stop "STOP_MARKET" false
       (sent (snd (open_position Scenario.exchange_refusing_stop "BTCUSDT" "long" 100
                     Scenario.flat))) = true
  /\ open_positions
       (risk_manager (snd (open_position Scenario.exchange_refusing_stop "BTCUSDT"
                             "long" 100 Scenario.flat))) !! "BTCUSDT"%string = None.
Proof. repeat split; vm_compute; reflexivity. Qed.

(** With every order accepted the same call records the position. *)
Example protected_position_in_registry :
  is_Some (open_positions
             (risk_manager (snd (open_position Scenario.exchange "BTCUSDT" "long" 100
                                   Scenario.flat))) !! "BTCUSDT"%string).
Proof. vm_compute. eexists. reflexivity. Qed.

(** C1. Long position of 10 units entered at 100, trades at 101 and then 103.
    At 101 the profit is 1 percent and the loop stops at the level (1.0, 0.3);
    the call for the 3 units raises, and the quantity stays 10. At 103 the
    profit is 3 percent and the loop stops at the level (1.0, 0.3) again, not
    at a later level; the quantity is still 10, and no market order has been
    sent. *)
Theorem ladder_scenario_closes_nothing :
  let ex := Scenario.exchange in
  let s1 := after_message ex (Scenario.tick 101) Scenario.holding in
  let s2 := after_message ex (Scenario.tick 103) s1 in
  (exists pnl, pnl_percent_of Scenario.long_position 101 = Ok pnl /\ pnl == 1
               /\ first_level_met pnl PARTIAL_CLOSE_LEVELS
                  = Some {| profit := 1; close_percent := 3 # 10 |})
  /\ fst (handle_body ex (Scenario.tick 101) Scenario.holding)
     = Raise (AttributeError "partial_close_position")
  /\ quantity <$> open_positions (risk_manager s1) !! "BTCUSDT"%string = Some (PyF 10)
  /\ (exists pnl, pnl_percent_of Scenario.long_position 103 = Ok pnl /\ pnl == 3
                  /\ first_level_met pnl PARTIAL_CLOSE_LEVELS
                     = Some {| profit := 1; close_percent := 3 # 10 |})
  /\ fst (handle_body ex (Scenario.tick 103) s1)
     = Raise (AttributeError "partial_close_position")
  /\ quantity <$> open_positions (risk_manager s2) !! "BTCUSDT"%string = Some (PyF 10)
  /\ placed ex "MARKET" true (sent s2) = false
  /\ placed ex "MARKET" false (sent s2) = false.
Proof.
  cbv zeta. repeat split; try (vm_compute; reflexivity);
    eexists; repeat split; vm_compute; reflexivity.
Qed.

(** The ladder on a trade at 101 for the long position entered at 100. *)
Lemma ladder_raises_and_is_absorbed_witness :
  partial_close_check (msg_s (Scenario.tick 101)) (msg_p (Scenario.tick 101))
    Scenario.holding
  = (Raise (AttributeError "partial_close_position"), Scenario.holding)
  /\ exists s',
       handle_body Scenario.exchange (Scenario.tick 101) Scenario.holding
       = (Raise (AttributeError "partial_close_position"), s')
       /\ handle_socket_message Scenario.exchange (Scenario.tick 101) Scenario.holding
          = (Ok tt, s')
       /\ quantity <$> open_positions (risk_manager s') !! msg_s (Scenario.tick 101)
          = Some (quantity Scenario.long_position)
       /\ only_stop_orders Scenario.holding s'.
Proof.
  destruct (ladder_raises_and_is_absorbed Scenario.exchange (Scenario.tick 101)
              Scenario.holding Scenario.long_position _ _ eq_refl eq_refl eq_refl)
    as [H1 H2].
  split; [exact H1|]. apply H2; reflexivity.
Defined.

(** A trade at 101 that repeats the previous price: the level of 1 percent
    is met for the long position entered at 100, yet the handler does not
    evaluate the ladder; its body returns normally and leaves the globals as
    they were. *)
Lemma ladder_skipped_at_repeated_price :
  exists pnl l,
    pnl_percent_of Scenario.long_position 101 = Ok pnl
    /\ first_level_met pnl PARTIAL_CLOSE_LEVELS = Some l
    /\ handle_body Scenario.exchange (Scenario.tick 101) Scenario.holding_at_101
       = (Ok tt, Scenario.holding_at_101).
Proof.
  eexists _, _. split; [reflexivity|]. split; [reflexivity|].
  vm_compute. reflexivity.
Qed.

(** ** Position sizing *)

(** C6. The validated size never exceeds a tenth of the balance, for every
    size and balance that are not negative; and in the scenario balance 10000,
    entry 100, stop 98 (risk 0.01, leverage 3) the raw size is 150 and the
    cap leaves it at 150. *)
Theorem position_size_cap :
  (forall x balance : pynum,
      py_le (PyF 0) x = true -> py_le (PyF 0) balance = true ->
      py_le (validate_position_size x balance) (py_mul (PyF (1 # 10)) balance) = true)
  /\ (exists raw final : Q,
        calculate_position_size (PyF 10000) (PyF 100) (PyF 98) = Ok (PyF raw)
        /\ raw == 150
        /\ validate_position_size (PyF raw) (PyF 10000) = PyF final
        /\ final == 150).
Proof.
  split.
  - intros x balance Hx Hb.
    unfold validate_position_size, py_min, py_lt, py_le in *.
    destruct balance as [b | [b | | |]], x as [x | [x | | |]];
      simpl in *; try congruence;
      try (match goal with
           | |- context [Qltb ?u ?v] => destruct (Qltb u v) eqn:E
           end; simpl; [| apply Qltb_false in E]);
      try reflexivity; apply Qle_bool_iff; qlra.
  - eexists _, _. repeat split; vm_compute; reflexivity.
Qed.

(** The bound at a concrete size and balance: 5000 is cut to a tenth of 10000. *)
Lemma position_size_cap_witness :
  py_le (validate_position_size (PyF 5000) (PyF 10000)) (py_mul (PyF (1 # 10)) (PyF 10000))
  = true.
Proof. apply (proj1 position_size_cap); reflexivity. Defined.

(** ** Dynamic stops *)

Lemma true_range_from_length (prev : Q) (df : list bar) :
  length (true_range_from prev df) = length df.
Proof. revert prev. induction df as [|b df IH]; intros prev; simpl; [|rewrite IH]; reflexivity. Qed.

Lemma true_range_length (df : list bar) : length (true_range df) = length df.
Proof. destruct df; simpl; [|rewrite true_range_from_length]; reflexivity. Qed.

Lemma dynamic_stops_body_long (df : list bar) (b : bar) :
  (14 <= length df)%nat -> last df = Some b -> 0 < close b ->
  dynamic_stops_body df =
    Ok (clamp_stop (NpF (Fin (raw_stop_percent df (close b)))),
        py_mul (clamp_stop (NpF (Fin (raw_stop_percent df (close b))))) (PyF (3 # 2))).
Proof.
  intros Hlen Hlast Hpos.
  unfold dynamic_stops_body. rewrite Hlast.
  unfold rolling_mean_last. rewrite true_range_length.
  destruct (length df <? 14)%nat eqn:E; [apply Nat.ltb_lt in E; lia|].
  assert (Hz : Qeq_bool (close b) 0 = false).
  { destruct (Qeq_bool (close b) 0) eqn:Ez; [|reflexivity].
    apply Qeq_bool_iff in Ez. rewrite Ez in Hpos. discriminate. }
  cbn [py_mul py_binop py_div value np_mul np_div mbind pyres_bind].
  rewrite Hz. reflexivity.
Qed.

Lemma clamp_stop_fin (raw : Q) :
  exists q : Q,
    value (clamp_stop (NpF (Fin raw))) = Fin q
    /\ MIN_STOP_LOSS <= q <= MAX_STOP_LOSS
    /\ (raw < MIN_STOP_LOSS -> q = MIN_STOP_LOSS)
    /\ (MAX_STOP_LOSS < raw -> q = MAX_STOP_LOSS)
    /\ (MIN_STOP_LOSS <= raw <= MAX_STOP_LOSS -> q = raw).
Proof.
  unfold clamp_stop, py_max, py_min, py_lt. cbn [value np_ltb].
  destruct (Qltb MAX_STOP_LOSS raw) eqn:E1; cbn [value np_ltb].
  - apply Qltb_true in E1. exists MAX_STOP_LOSS.
    unfold MAX_STOP_LOSS, MIN_STOP_LOSS in *. simpl.
    repeat split; try qlra; intros; try reflexivity; exfalso; qlra.
  - apply Qltb_false in E1.
    destruct (Qltb raw MIN_STOP_LOSS) eqn:E2; cbn [value].
    + apply Qltb_true in E2. exists MIN_STOP_LOSS.
      unfold MAX_STOP_LOSS, MIN_STOP_LOSS in *.
      repeat split; try qlra; intros; try reflexivity; exfalso; qlra.
    + apply Qltb_false in E2. exists raw.
      unfold MAX_STOP_LOSS, MIN_STOP_LOSS in *.
      repeat split; try qlra; intros; try reflexivity; exfalso; qlra.
Qed.

(** With 14 bars or more and a positive last close, the stop is the raw
    percentage clamped to the configured band, and the target is 1.5 times
    the stop. *)
Lemma dynamic_stops_clamped (df : list bar) (b : bar) :
  (14 <= length df)%nat -> last df = Some b -> 0 < close b ->
  exists sl tp : pynum, exists q : Q,
    calculate_dynamic_stops df = (sl, tp)
    /\ value sl = Fin q
    /\ MIN_STOP_LOSS <= q <= MAX_STOP_LOSS
    /\ (raw_stop_percent df (close b) < MIN_STOP_LOSS -> q = MIN_STOP_LOSS)
    /\ (MAX_STOP_LOSS < raw_stop_percent df (close b) -> q = MAX_STOP_LOSS)
    /\ (MIN_STOP_LOSS <= raw_stop_percent df (close b) <= MAX_STOP_LOSS ->
        q = raw_stop_percent df (close b))
    /\ value tp = Fin (q * (3 # 2)).
Proof.
  intros Hlen Hlast Hpos.
  unfold calculate_dynamic_stops.
  rewrite (dynamic_stops_body_long df b Hlen Hlast Hpos).
  destruct (clamp_stop_fin (raw_stop_percent df (close b)))
    as (q & Hq & Hband & Hlo & Hhi & Hmid).
  eexists _, _, q. split; [reflexivity|].
  repeat split; try assumption; try apply Hband.
  destruct (clamp_stop (NpF (Fin (raw_stop_percent df (close b))))) as [x|v];
    simpl in Hq |- *; [injection Hq as ->; reflexivity | subst v; reflexivity].
Qed.

(** An empty frame raises inside the [try] and the static defaults come back. *)
Lemma dynamic_stops_fallback :
  calculate_dynamic_stops [] = (PyF STOP_LOSS_PERCENT, PyF TAKE_PROFIT_PERCENT).
Proof. reflexivity. Qed.

(** With 1 to 13 bars the rolling mean is NaN, nothing raises, and NaN goes
    through [min] and [max] unchanged. *)
Lemma dynamic_stops_short (df : list bar) :
  (0 < length df < 14)%nat -> calculate_dynamic_stops df = (NpF NaN, NpF NaN).
Proof.
  intros [Hpos Hlt].
  unfold calculate_dynamic_stops, dynamic_stops_body.
  destruct (last df) as [b|] eqn:Hlast.
  - unfold rolling_mean_last. rewrite true_range_length.
    apply Nat.ltb_lt in Hlt. rewrite Hlt. reflexivity.
  - apply last_None in Hlast. subst df. simpl in Hpos. lia.
Qed.

(** C5. A history of 13 bars (high 101, low 99, close 100): the call returns
    NaN for both percentages, neither a value inside the band from
    [MIN_STOP_LOSS] to [MAX_STOP_LOSS] nor the static defaults. *)
Theorem dynamic_stops_thirteen_bars :
  calculate_dynamic_stops (repeat {| high := 101; low := 99; close := 100 |} 13)
  = (NpF NaN, NpF NaN)
  /\ py_le (PyF MIN_STOP_LOSS) (NpF NaN) = false
  /\ py_le (NpF NaN) (PyF MAX_STOP_LOSS) = false.
Proof. repeat split. Qed.

(** ** Price alerts *)

Lemma check_alert_both (current_price : Q) (a : price_alert) :
  direction a = "both"%string -> check_alert current_price a = a.
Proof.
  intros Hd. unfold check_alert. rewrite Hd. simpl.
  destruct (triggered a); reflexivity.
Qed.

(** An alert of direction ['both'] keeps its place and its fields through
    either operation on the store. *)
Lemma run_alert_op_keeps_both (rm : RiskManager) (op : alert_op) (symbol : string)
    (alerts : list price_alert) (i : nat) (a : price_alert) :
  price_alerts rm !! symbol = Some alerts -> alerts !! i = Some a ->
  direction a = "both"%string ->
  exists alerts', price_alerts (run_alert_op rm op) !! symbol = Some alerts'
                  /\ alerts' !! i = Some a.
Proof.
  intros Hs Hi Hd. destruct op as [sym p d m | sym p]; simpl.
  - unfold add_price_alert. simpl.
    destruct (decide (sym = symbol)) as [->|Hne].
    + rewrite lookup_insert_eq, Hs. simpl. eexists; split; [reflexivity|].
      rewrite lookup_app_l; [exact Hi|]. eapply lookup_lt_Some; exact Hi.
    + rewrite lookup_insert_ne by exact Hne. eauto.
  - unfold check_price_alerts.
    destruct (decide (sym = symbol)) as [->|Hne].
    + rewrite Hs. simpl. rewrite lookup_insert_eq. eexists; split; [reflexivity|].
      change (map (check_alert p) alerts) with (check_alert p <$> alerts).
      rewrite list_lookup_fmap, Hi. simpl. f_equal. apply check_alert_both, Hd.
    + destruct (price_alerts rm !! sym); simpl; [|eauto].
      rewrite lookup_insert_ne by exact Hne. eauto.
Qed.

Lemma run_alert_ops_keep_both (ops : list alert_op) (rm : RiskManager) (symbol : string)
    (alerts : list price_alert) (i : nat) (a : price_alert) :
  price_alerts rm !! symbol = Some alerts -> alerts !! i = Some a ->
  direction a = "both"%string ->
  exists alerts', price_alerts (run_alert_ops ops rm) !! symbol = Some alerts'
                  /\ alerts' !! i = Some a.
Proof.
  revert rm alerts. induction ops as [|op ops IH]; intros rm alerts Hs Hi Hd.
  - simpl. eauto.
  - destruct (run_alert_op_keeps_both rm op symbol alerts i a Hs Hi Hd)
      as (alerts1 & Hs1 & Hi1).
    exact (IH _ _ Hs1 Hi1 Hd).
Qed.

(** C10. An alert added with direction ['both'] stays in the list of its
    symbol, at its place, with [triggered] false, through every later
    sequence of [add_price_alert] and [check_price_alerts] calls, at whatever
    prices. *)
Theorem both_alert_never_triggered (ops : list alert_op) (rm : RiskManager)
    (symbol : string) (price : Q) (msg : alert_message) :
  exists alerts,
    price_alerts (run_alert_ops ops (add_price_alert symbol price "both" msg rm))
      !! symbol = Some alerts
    /\ alerts !! length (default [] (price_alerts rm !! symbol))
       = Some {| alert_price := price; direction := "both"; message := msg;
                 triggered := false |}.
Proof.
  eapply run_alert_ops_keep_both; [| |reflexivity].
  - unfold add_price_alert. simpl. apply lookup_insert_eq.
  - rewrite lookup_app_r by lia. rewrite Nat.sub_diag. reflexivity.
Qed.

End TradingFacts.

Module FeedFacts.
Import RealTradingWebsocket.

(** ** The reconnecting feed *)

(** Every call of [start_symbol_ticker_socket] resets the counter, so the
    reconnection that follows a failure sees 1, never more than the bound:
    the run never gives up and never sends the notification of the bound. *)
Lemma start_never_gives_up (script : list round) (f : feed) :
  let '(o, f') := start_symbol_ticker_socket script f in
  o <> GaveUp
  /\ (forall n, In n (notifications f') ->
        In n (notifications f) \/ n = ConnectError \/ n = ReconnectError).
Proof.
  revert f. induction script as [|r rest IH]; intros f; simpl.
  - split; [discriminate | auto].
  - destruct (socket_ok r).
    + split; [discriminate | simpl; auto].
    + unfold reconnect_websocket_with. simpl.
      destruct (restart_ok r).
      * specialize (IH (set_attempts 1
                  (notify ConnectError (count_start (set_attempts 0 f))))).
        destruct (start_symbol_ticker_socket rest _) as [o f'].
        destruct IH as [Ho Hn]. split; [exact Ho|].
        intros n Hin. destruct (Hn n Hin) as [H|H]; [|auto].
        simpl in H. apply in_app_or in H. destruct H as [H|[H|[]]]; auto.
      * split; [discriminate|]. simpl. intros n Hin.
        apply in_app_or in Hin. destruct Hin as [H|[H|[]]]; [|auto].
        apply in_app_or in H. destruct H as [H|[H|[]]]; auto.
Qed.

(** After [n] failures in a row (within the recursion limit of the
    interpreter) the feed has started [n] sockets, sent [n] connection-error
    notifications and nothing else, and is still trying. *)
Lemma failures_keep_connecting (n : nat) (f : feed) :
  start_symbol_ticker_socket (repeat failing n) f =
    (Connecting,
     {| reconnect_attempts := match n with O => reconnect_attempts f | S _ => 1 end;
        socket_starts := socket_starts f + n;
        notifications := notifications f ++ repeat ConnectError n |}).
Proof.
  revert f. induction n as [|n IH]; intros f.
  - simpl. destruct f; simpl. rewrite Nat.add_0_r, app_nil_r. reflexivity.
  - simpl. unfold reconnect_websocket_with. simpl. rewrite IH. simpl.
    f_equal. f_equal.
    + destruct n; reflexivity.
    + lia.
    + rewrite <- app_assoc. reflexivity.
Qed.

(** C7. Six connection attempts fail in a row and the seventh succeeds: the
    feed makes the seventh attempt and ends subscribed; the counter has been
    reset by each attempt, and the only notifications are the six connection
    errors, none of them the notification of the exceeded bound. *)
Theorem six_failures_then_seventh_attempt :
  start_symbol_ticker_socket (repeat failing 6 ++ [succeeding]) initial_feed
  = (Subscribed,
     {| reconnect_attempts := 0; socket_starts := 7;
        notifications := repeat ConnectError 6 |})
  /\ MAX_RECONNECT_ATTEMPTS = 5%nat
  /\ ~ In MaxAttemptsExceeded
       (notifications
          (snd (start_symbol_ticker_socket (repeat failing 6 ++ [succeeding])
                  initial_feed))).
Proof.
  split; [reflexivity|]. split; [reflexivity|].
  simpl. intros H. repeat destruct H as [H|H]; try discriminate H. exact H.
Qed.

End FeedFacts.

(** * Further properties of the two scripts *)

Module EngineFacts.
Import RealTrading Views TradingFacts.

(** ** Invariants of the handler over any sequence of messages *)

Lemma keeps_refl {X} (f : state -> X) s : keeps f s s.
Proof. reflexivity. Qed.

Lemma keeps_trans {X} (f : state -> X) a b c : keeps f a b -> keeps f b c -> keeps f a c.
Proof. unfold keeps. congruence. Qed.

Lemma preserves_weaken (R1 R2 : state -> state -> Prop) {A} (m : py A) :
  (forall s s', R1 s s' -> R2 s s') -> preserves R1 m -> preserves R2 m.
Proof. intros H Hm s. apply H, Hm. Qed.

(** [cancel_stop_orders] keeps every relation that ignores the requests. *)
Lemma cancel_stop_orders_preserves (R : state -> state -> Prop) ex symbol orders :
  (forall s, R s s) -> (forall a b c, R a b -> R b c -> R a c) ->
  (forall s orderId, R s (add_sent [futures_cancel_order symbol orderId] s)) ->
  preserves R (cancel_stop_orders ex symbol orders).
Proof.
  intros Hrefl Htrans Hsent.
  induction orders as [|[type orderId] rest IH]; simpl.
  - apply (preserves_ret _ Hrefl).
  - apply (preserves_bind _ Htrans); [|intros _; exact IH].
    destruct (String.eqb type "STOP_MARKET").
    + apply (preserves_answer_ok _ Hrefl Htrans). intros s. apply Hsent.
    + apply (preserves_ret _ Hrefl).
Qed.

(** The handler with every function it calls laid open, but for the three
    that change the trailing stops, the registry and the histories. *)
Ltac open_handler :=
  unfold handle_socket_message, handle_body, partial_close_check, liquidation_check,
    determine_target_price, get_futures_klines;
  cbn [partial_close_loop PARTIAL_CLOSE_LEVELS]; unfold partial_close_position;
  cbv zeta.

Ltac open_position_calls :=
  unfold open_position, check_margin_usage, set_leverage, check_entry_conditions,
    place_orders, get_futures_klines, get_tick_size.

(** Frame proof for a component [f] that the action does not touch. *)
Ltac frame_keeps f :=
  repeat frame_step (keeps_refl f) (keeps_trans f) ltac:(solve [intros ?; reflexivity]).

Lemma update_price_data_keeps_rm_part {X} (f : RiskManager -> X) symbol p ts :
  (forall sym q d m rm, f (add_price_alert sym q d m rm) = f rm) ->
  preserves (keeps (fun s => f (risk_manager s))) (update_price_data symbol p ts).
Proof.
  intros Hf. unfold update_price_data, _update_volatility.
  repeat frame_step (keeps_refl (fun s => f (risk_manager s)))
    (keeps_trans (fun s => f (risk_manager s))) ltac:(solve [intros ?; reflexivity]).
  apply preserves_modify. intros s0. unfold keeps. simpl. apply Hf.
Qed.

Lemma open_position_keeps {X} (f : state -> X) ex symbol side price :
  (forall s r, f (add_sent r s) = f s) ->
  (forall s m, f (set_risk_manager (set_open_positions m (risk_manager s)) s) = f s) ->
  preserves (keeps f) (open_position ex symbol side price).
Proof.
  intros Hsent Hpos. open_position_calls.
  repeat frame_step (keeps_refl f) (keeps_trans f)
    ltac:(solve [intros ?; first [reflexivity | apply Hsent]]).
  apply preserves_modify. intros s0. apply Hpos.
Qed.

Lemma update_trailing_stop_keeps {X} (f : state -> X) ex symbol p :
  (forall s r, f (add_sent r s) = f s) ->
  (forall s m, f (set_risk_manager (set_open_positions m (risk_manager s)) s) = f s) ->
  (forall s m, f (set_risk_manager (set_trailing_stops m (risk_manager s)) s) = f s) ->
  preserves (keeps f) (update_trailing_stop ex symbol p).
Proof.
  intros Hsent Hpos Htr. unfold update_trailing_stop, update_stop_loss_order, set_trailing.
  repeat frame_step (keeps_refl f) (keeps_trans f)
    ltac:(solve [intros ?; first [reflexivity | apply Hsent | apply Hpos | apply Htr]]).
  apply cancel_stop_orders_preserves;
    [apply keeps_refl | apply keeps_trans | intros; apply Hsent].
Qed.

(** A relation on the globals is kept by the handler once it is kept by the
    writes of the handler itself and by the three functions that write the
    histories, the trailing stops and the registry. *)
Section Handler.
Variable R : state -> state -> Prop.
Hypothesis R_refl : forall s, R s s.
Hypothesis R_trans : forall a b c, R a b -> R b c -> R a c.
Hypothesis R_sent : forall s r, R s (add_sent [r] s).
Hypothesis R_previous : forall s symbol p, R s (set_previous_price symbol p s).
Hypothesis R_target : forall s symbol t, R s (set_target_price symbol t s).
Hypothesis R_alerts : forall s symbol p,
  R s (set_risk_manager (check_price_alerts symbol p (risk_manager s)) s).
Hypothesis R_price_data : forall symbol p ts, preserves R (update_price_data symbol p ts).
Hypothesis R_trailing : forall ex symbol p,
  preserves R (update_trailing_stop ex symbol p).
Hypothesis R_open : forall ex symbol side p,
  preserves R (open_position ex symbol side p).

Lemma handle_socket_message_preserves ex msg :
  preserves R (handle_socket_message ex msg).
Proof using All.
  open_handler.
  repeat first
    [ apply R_price_data | apply R_trailing | apply R_open
    | frame_step R_refl R_trans
        ltac:(solve [intros ?; first [apply R_sent | apply R_previous
                                     | apply R_target | apply R_alerts]]) ].
Qed.

Lemma after_messages_preserves feed s : R s (after_messages feed s).
Proof using All.
  revert s. induction feed as [|[ex msg] feed IH]; intros s; [apply R_refl|].
  simpl. eapply R_trans; [|apply IH].
  apply handle_socket_message_preserves.
Qed.
End Handler.

(** *** Trailing stops *)

Lemma stops_rise_refl s : stops_rise s s.
Proof. intros symbol tr H. exists tr. split; [exact H | apply Qle_refl]. Qed.

Lemma stops_rise_trans a b c : stops_rise a b -> stops_rise b c -> stops_rise a c.
Proof.
  intros Hab Hbc symbol tr H.
  destruct (Hab _ _ H) as (tr1 & H1 & L1). destruct (Hbc _ _ H1) as (tr2 & H2 & L2).
  exists tr2. split; [exact H2 | eapply Qle_trans; eassumption].
Qed.

Lemma stops_rise_same s s' :
  keeps (fun s => trailing_stops (risk_manager s)) s s' -> stops_rise s s'.
Proof.
  unfold keeps. intros E symbol tr H. exists tr. rewrite E.
  split; [exact H | apply Qle_refl].
Qed.

Lemma check_price_alerts_trailing symbol p rm :
  trailing_stops (check_price_alerts symbol p rm) = trailing_stops rm.
Proof. unfold check_price_alerts. destruct (price_alerts rm !! symbol); reflexivity. Qed.

Lemma check_price_alerts_positions symbol p rm :
  open_positions (check_price_alerts symbol p rm) = open_positions rm.
Proof. unfold check_price_alerts. destruct (price_alerts rm !! symbol); reflexivity. Qed.

(** [update_trailing_stop] leaves the trailing stops of the other symbols. *)
Lemma update_trailing_stop_other ex symbol p other :
  symbol <> other ->
  preserves (keeps (fun s => trailing_stops (risk_manager s) !! other))
    (update_trailing_stop ex symbol p).
Proof.
  intros Hne. unfold update_trailing_stop, update_stop_loss_order, set_trailing.
  repeat frame_step (keeps_refl (fun s => trailing_stops (risk_manager s) !! other))
    (keeps_trans (fun s => trailing_stops (risk_manager s) !! other))
    ltac:(solve [intros ?; first [reflexivity
                                 | unfold keeps; simpl; apply lookup_insert_ne, Hne]]).
  apply cancel_stop_orders_preserves;
    [apply keeps_refl | apply keeps_trans | reflexivity].
Qed.

Lemma update_trailing_stop_stops_rise ex symbol p :
  preserves stops_rise (update_trailing_stop ex symbol p).
Proof.
  intros s other tr H. destruct (decide (symbol = other)) as [<-|Hne].
  - rewrite update_trailing_stop_next, H. apply next_trailing_stop_le.
  - exists tr. rewrite (update_trailing_stop_other ex symbol p other Hne s).
    split; [exact H | apply Qle_refl].
Qed.

Lemma handler_stops_rise ex msg : preserves stops_rise (handle_socket_message ex msg).
Proof.
  apply handle_socket_message_preserves.
  - apply stops_rise_refl.
  - apply stops_rise_trans.
  - intros; apply stops_rise_same; reflexivity.
  - intros; apply stops_rise_same; reflexivity.
  - intros; apply stops_rise_same; reflexivity.
  - intros; apply stops_rise_same. unfold keeps. simpl. apply check_price_alerts_trailing.
  - intros. eapply preserves_weaken; [apply stops_rise_same|].
    apply (update_price_data_keeps_rm_part trailing_stops). reflexivity.
  - apply update_trailing_stop_stops_rise.
  - intros. eapply preserves_weaken; [apply stops_rise_same|].
    apply open_position_keeps; reflexivity.
Qed.

(** X5. Over any sequence of messages, for any symbols and whatever the
    exchange answers, a trailing stop that exists is never removed and its
    stop price never decreases. *)
Theorem handler_never_lowers_a_stop feed s symbol tr :
  trailing_stops (risk_manager s) !! symbol = Some tr ->
  exists tr', trailing_stops (risk_manager (after_messages feed s)) !! symbol = Some tr'
              /\ stop_price tr <= stop_price tr'.
Proof.
  revert s tr. induction feed as [|[ex msg] feed IH]; intros s tr H.
  - exists tr. split; [exact H | apply Qle_refl].
  - simpl. destruct (handler_stops_rise ex msg s _ _ H) as (tr1 & H1 & L1).
    destruct (IH _ _ H1) as (tr2 & H2 & L2).
    exists tr2. split; [exact H2 | eapply Qle_trans; eassumption].
Qed.

Lemma handler_never_lowers_a_stop_witness :
  exists tr',
    trailing_stops
      (risk_manager (after_messages [(Scenario.exchange, Scenario.tick 110)]
                       Scenario.trailed)) !! "BTCUSDT"%string = Some tr'
    /\ stop_price Scenario.first_trailing <= stop_price tr'.
Proof.
  apply (handler_never_lowers_a_stop [(Scenario.exchange, Scenario.tick 110)]
           Scenario.trailed "BTCUSDT" Scenario.first_trailing).
  reflexivity.
Defined.

(** *** The registry of positions *)

Lemma registry_grows_refl s : registry_grows s s.
Proof. intros symbol H. exact H. Qed.

Lemma registry_grows_trans a b c :
  registry_grows a b -> registry_grows b c -> registry_grows a c.
Proof. intros Hab Hbc symbol H. apply Hbc, Hab, H. Qed.

Lemma registry_grows_same s s' :
  keeps (fun s => open_positions (risk_manager s)) s s' -> registry_grows s s'.
Proof. unfold keeps. intros E symbol H. rewrite E. exact H. Qed.

Lemma registry_grows_alter s f symbol :
  registry_grows s
    (set_risk_manager
       (set_open_positions (alter f symbol (open_positions (risk_manager s)))
          (risk_manager s)) s).
Proof. intros other H. simpl. apply lookup_alter_is_Some, H. Qed.

Lemma registry_grows_insert s pos symbol :
  registry_grows s
    (set_risk_manager
       (set_open_positions (<[symbol := pos]> (open_positions (risk_manager s)))
          (risk_manager s)) s).
Proof.
  intros other H. simpl. apply lookup_insert_is_Some'. right. exact H.
Qed.

Lemma update_trailing_stop_registry ex symbol p :
  preserves registry_grows (update_trailing_stop ex symbol p).
Proof.
  unfold update_trailing_stop, update_stop_loss_order, set_trailing.
  repeat frame_step registry_grows_refl registry_grows_trans
    ltac:(solve [intros ?; first [apply registry_grows_same; reflexivity
                                 | apply registry_grows_alter]]).
  apply cancel_stop_orders_preserves;
    [apply registry_grows_refl | apply registry_grows_trans
    | intros; apply registry_grows_same; reflexivity].
Qed.

Lemma open_position_registry ex symbol side p :
  preserves registry_grows (open_position ex symbol side p).
Proof.
  open_position_calls.
  repeat frame_step registry_grows_refl registry_grows_trans
    ltac:(solve [intros ?; first [apply registry_grows_same; reflexivity
                                 | apply registry_grows_insert]]).
Qed.

Lemma handler_registry_grows ex msg :
  preserves registry_grows (handle_socket_message ex msg).
Proof.
  apply handle_socket_message_preserves.
  - apply registry_grows_refl.
  - apply registry_grows_trans.
  - intros; apply registry_grows_same; reflexivity.
  - intros; apply registry_grows_same; reflexivity.
  - intros; apply registry_grows_same; reflexivity.
  - intros; apply registry_grows_same. unfold keeps. simpl.
    apply check_price_alerts_positions.
  - intros. eapply preserves_weaken; [apply registry_grows_same|].
    apply (update_price_data_keeps_rm_part open_positions). reflexivity.
  - apply update_trailing_stop_registry.
  - apply open_position_registry.
Qed.

(** X6. The handler never takes a position out of the registry: over any
    sequence of messages a symbol that has a recorded position keeps one, so
    the number of recorded positions never goes down. *)
Theorem handler_never_forgets_a_position feed s :
  (forall symbol,
     is_Some (open_positions (risk_manager s) !! symbol) ->
     is_Some (open_positions (risk_manager (after_messages feed s)) !! symbol))
  /\ (size (open_positions (risk_manager s))
      <= size (open_positions (risk_manager (after_messages feed s))))%nat.
Proof.
  assert (H : registry_grows s (after_messages feed s)).
  { revert s. induction feed as [|[ex msg] feed IH]; intros s.
    - apply registry_grows_refl.
    - simpl. eapply registry_grows_trans; [apply handler_registry_grows | apply IH]. }
  split; [exact H|].
  rewrite <- !size_dom. apply subseteq_size.
  intros symbol Hin. apply elem_of_dom. apply H. apply elem_of_dom. exact Hin.
Qed.

(** *** The price histories *)

Lemma keeps_cap_refl s : keeps_cap s s.
Proof. intros H. exact H. Qed.

Lemma keeps_cap_trans a b c : keeps_cap a b -> keeps_cap b c -> keeps_cap a c.
Proof. unfold keeps_cap. auto. Qed.

Lemma keeps_cap_same s s' : keeps price_analyzer s s' -> keeps_cap s s'.
Proof. unfold keeps, keeps_cap, histories_capped. intros ->. auto. Qed.

Lemma recorded_length symbol p ts s : (length (recorded symbol p ts s) <= 1000)%nat.
Proof.
  unfold recorded.
  destruct (1000 <? length _)%nat eqn:E.
  - unfold last_n. rewrite length_drop. lia.
  - apply Nat.ltb_ge in E. exact E.
Qed.

(** [update_price_data] writes the history of its symbol only. *)
Lemma update_price_data_history symbol p ts s other :
  price_history (price_analyzer (snd (update_price_data symbol p ts s))) !! other
  = if decide (symbol = other) then Some (recorded symbol p ts s)
    else price_history (price_analyzer s) !! other.
Proof.
  destruct (decide (symbol = other)) as [<-|Hne].
  - apply (update_price_data_effect symbol p ts s).
  - revert s.
    assert (Hk : forall q,
      preserves (keeps (fun s => price_history (price_analyzer s) !! other))
        (modify_pa (fun pa => set_price_history (<[symbol := q pa]> (price_history pa)) pa))).
    { intros q. apply preserves_modify. intros s. unfold keeps. simpl.
      apply lookup_insert_ne, Hne. }
    unfold update_price_data, _update_volatility.
    intros s.
    match goal with
    | |- price_history (price_analyzer (snd (?m s))) !! other = _ =>
        change (keeps (fun s => price_history (price_analyzer s) !! other) s (snd (m s)));
        revert s; change (preserves (keeps (fun s => price_history (price_analyzer s) !! other)) m)
    end.
    repeat first
      [ apply (Hk (fun pa => if (1000 <? length _)%nat then _ else _))
      | apply Hk
      | frame_step (keeps_refl (fun s => price_history (price_analyzer s) !! other))
          (keeps_trans (fun s => price_history (price_analyzer s) !! other))
          ltac:(solve [intros ?; reflexivity]) ].
Qed.

Lemma update_price_data_cap symbol p ts :
  preserves keeps_cap (update_price_data symbol p ts).
Proof.
  intros s Hs other history. rewrite update_price_data_history.
  destruct (decide (symbol = other)).
  - intros [= <-]. apply recorded_length.
  - apply Hs.
Qed.

Lemma handler_keeps_cap ex msg : preserves keeps_cap (handle_socket_message ex msg).
Proof.
  apply handle_socket_message_preserves.
  - apply keeps_cap_refl.
  - apply keeps_cap_trans.
  - intros; apply keeps_cap_same; reflexivity.
  - intros; apply keeps_cap_same; reflexivity.
  - intros; apply keeps_cap_same; reflexivity.
  - intros; apply keeps_cap_same; reflexivity.
  - apply update_price_data_cap.
  - intros. eapply preserves_weaken; [apply keeps_cap_same|].
    apply update_trailing_stop_keeps; reflexivity.
  - intros. eapply preserves_weaken; [apply keeps_cap_same|].
    apply open_position_keeps; reflexivity.
Qed.

(** X7. The price history of every symbol stays within 1000 samples over
    any sequence of messages, once it is so at the start. *)
Theorem handler_caps_the_histories feed s :
  histories_capped s -> histories_capped (after_messages feed s).
Proof.
  revert s. induction feed as [|[ex msg] feed IH]; intros s H; [exact H|].
  simpl. apply IH. apply (handler_keeps_cap ex msg s H).
Qed.


(** *** A NaN target *)

Lemma no_entry_on_refl symbol s : no_entry_on symbol s s.
Proof. intros o H. left. exact H. Qed.

Lemma no_entry_on_trans symbol a b c :
  no_entry_on symbol a b -> no_entry_on symbol b c -> no_entry_on symbol a c.
Proof.
  intros H1 H2 o H. destruct (H2 o H) as [H'|H']; [apply H1, H' | right; exact H'].
Qed.

Lemma same_target_no_entry_refl symbol s : same_target_no_entry symbol s s.
Proof. split; [reflexivity | apply no_entry_on_refl]. Qed.

Lemma same_target_no_entry_trans symbol a b c :
  same_target_no_entry symbol a b -> same_target_no_entry symbol b c ->
  same_target_no_entry symbol a c.
Proof.
  intros [T1 E1] [T2 E2]. split; [congruence | eapply no_entry_on_trans; eassumption].
Qed.

Lemma blocked_refl symbol s : blocked symbol s s.
Proof. intros H. split; [exact H | apply no_entry_on_refl]. Qed.

Lemma blocked_trans symbol a b c :
  blocked symbol a b -> blocked symbol b c -> blocked symbol a c.
Proof.
  intros H1 H2 Ha. destruct (H1 Ha) as [Hb E1]. destruct (H2 Hb) as [Hc E2].
  split; [exact Hc | eapply no_entry_on_trans; eassumption].
Qed.

Lemma blocked_of_same symbol s s' : same_target_no_entry symbol s s' -> blocked symbol s s'.
Proof. unfold blocked, nan_target. intros [T E] H. rewrite T. split; assumption. Qed.

(** A write that leaves the symbol's target, or a request that is no entry
    on the symbol. *)
Ltac no_entry_side :=
  solve [ intros ?; split;
          [ first [ reflexivity | simpl; apply lookup_insert_ne; assumption ]
          | intros ? H; simpl in H; first
              [ left; exact H
              | apply in_app_or in H; destruct H as [H|[H|[]]];
                [ left; exact H
                | first [ discriminate H
                        | injection H as <-; right;
                          first [ left; reflexivity | right; simpl; assumption ] ] ] ] ] ].

Ltac frame_no_entry symbol :=
  repeat frame_step (same_target_no_entry_refl symbol) (same_target_no_entry_trans symbol)
    no_entry_side.

Lemma update_price_data_no_entry symbol sym p ts :
  preserves (same_target_no_entry symbol) (update_price_data sym p ts).
Proof. unfold update_price_data, _update_volatility. frame_no_entry symbol. Qed.

Lemma update_trailing_stop_no_entry symbol ex sym p :
  preserves (same_target_no_entry symbol) (update_trailing_stop ex sym p).
Proof.
  unfold update_trailing_stop, update_stop_loss_order. frame_no_entry symbol.
  apply cancel_stop_orders_preserves;
    [apply same_target_no_entry_refl | apply same_target_no_entry_trans|].
  intros s orderId. split; [reflexivity|]. intros o H. simpl in H.
  apply in_app_or in H. destruct H as [H|[H|[]]]; [left; exact H | discriminate H].
Qed.

Lemma liquidation_check_no_entry symbol sym p :
  preserves (same_target_no_entry symbol) (liquidation_check sym p).
Proof. unfold liquidation_check. cbv zeta. frame_no_entry symbol. Qed.

Lemma open_position_no_entry symbol ex sym side p :
  sym <> symbol ->
  preserves (same_target_no_entry symbol) (open_position ex sym side p).
Proof. intros Hne. open_position_calls. frame_no_entry symbol. Qed.

(** The first block of the handler: the price record, the trailing stop, the
    alerts and the partial-close check. *)
Lemma new_price_block_no_entry symbol ex sym p ts :
  preserves (same_target_no_entry symbol)
    (modify (set_previous_price sym p);;
     update_price_data sym p ts;;
     update_trailing_stop ex sym p;;
     modify_rm (check_price_alerts sym p);;
     partial_close_check sym p).
Proof.
  unfold partial_close_check. cbn [partial_close_loop PARTIAL_CLOSE_LEVELS].
  unfold partial_close_position.
  repeat first
    [ apply update_price_data_no_entry | apply update_trailing_stop_no_entry
    | frame_step (same_target_no_entry_refl symbol) (same_target_no_entry_trans symbol)
        no_entry_side ].
Qed.

Lemma preserves_get_bind (R : state -> state -> Prop) {A} (k : state -> py A) :
  (forall s, R s (snd (k s s))) -> preserves R (get ≫= k).
Proof. intros H s. unfold mbind, py_bind, get. apply H. Qed.

Lemma bind_at (R : state -> state -> Prop) {A B} (m : py A) (k : A -> py B) s :
  (forall a b c, R a b -> R b c -> R a c) ->
  R s (snd (m s)) -> (forall a, preserves R (k a)) -> R s (snd ((m ≫= k) s)).
Proof.
  intros Htrans Hm Hk. unfold mbind, py_bind.
  destruct (m s) as [[a|e] s1] eqn:E; simpl in Hm |- *; [|exact Hm].
  eapply Htrans; [exact Hm | apply Hk].
Qed.

Lemma handler_blocked symbol ex msg :
  preserves (blocked symbol) (handle_socket_message ex msg).
Proof.
  unfold handle_socket_message.
  apply (preserves_try _ (blocked_trans symbol));
    [|apply (preserves_ret _ (blocked_refl symbol))].
  unfold handle_body. destruct (String.eqb (msg_e msg) "aggTrade");
    [|apply (preserves_ret _ (blocked_refl symbol))].
  cbv zeta.
  apply (preserves_bind _ (blocked_trans symbol));
    [apply (preserves_get _ (blocked_refl symbol)) | intros s0].
  apply (preserves_bind _ (blocked_trans symbol)); [|intros ?].
  { eapply preserves_weaken; [apply blocked_of_same|].
    destruct (match previous_prices s0 !! msg_s msg with
              | Some previous => negb (Qeq_bool previous (msg_p msg))
              | None => true
              end).
    - apply new_price_block_no_entry.
    - apply (preserves_ret _ (same_target_no_entry_refl symbol)). }
  destruct (decide (msg_s msg = symbol)) as [Heq|Hne].
  - (* a message on the symbol: the target is there, and it is not reached *)
    rewrite Heq. apply preserves_get_bind. intros s.
    apply (bind_at _ _ _ _ (blocked_trans symbol)).
    + intros HT. red in HT. rewrite HT. split; [exact HT | apply no_entry_on_refl].
    + intros ?. apply preserves_get_bind. intros s1 HT. red in HT. rewrite HT.
      change (target_reached (mjoin (Some (Some (NpF NaN)))) (msg_p msg)) with false.
      cbv iota.
      exact (blocked_of_same symbol _ _
               (liquidation_check_no_entry symbol symbol (msg_p msg) s1) HT).
  - (* a message on another symbol *)
    eapply preserves_weaken; [apply blocked_of_same|].
    unfold determine_target_price, get_futures_klines.
    repeat first
      [ apply liquidation_check_no_entry
      | apply open_position_no_entry; exact Hne
      | frame_step (same_target_no_entry_refl symbol) (same_target_no_entry_trans symbol)
          no_entry_side ].
Qed.

(** X8. Once the target price of a symbol is NaN it stays NaN, and from then
    on no message, on any symbol and whatever the exchange answers, makes the
    handler order an entry on that symbol: the only orders on it are the
    stop orders of the trailing stop. *)
Theorem nan_target_never_trades symbol feed s :
  nan_target s symbol ->
  nan_target (after_messages feed s) symbol
  /\ forall o, In (futures_create_order o) (sent (after_messages feed s)) ->
               In (futures_create_order o) (sent s)
               \/ o_type o = "STOP_MARKET"%string \/ o_symbol o <> symbol.
Proof.
  assert (H : blocked symbol s (after_messages feed s)).
  { revert s. induction feed as [|[ex msg] feed IH]; intros s.
    - apply blocked_refl.
    - simpl. eapply blocked_trans; [apply handler_blocked | apply IH]. }
  exact H.
Qed.

Lemma nan_target_never_trades_witness :
  nan_target
    (after_messages [(Scenario.exchange, Scenario.tick 90)] Scenario.flat_nan_target)
    "BTCUSDT".
Proof.
  apply (nan_target_never_trades "BTCUSDT" [(Scenario.exchange, Scenario.tick 90)]
           Scenario.flat_nan_target).
  reflexivity.
Defined.

(** Where the NaN comes from: a history of 1 to 19 bars. *)
Lemma determine_target_price_short ex symbol s :
  (0 < length (klines ex symbol) < 20)%nat ->
  determine_target_price ex symbol s
  = (Ok (Some (NpF NaN)), add_sent [futures_klines symbol] s).
Proof.
  intros [Hpos Hlt]. unfold determine_target_price, get_futures_klines.
  unfold_run. cbv beta iota. cbn [fst snd].
  destruct (klines ex symbol) as [|b df] eqn:E; [simpl in Hpos; lia|].
  unfold rolling_mean_last at 1. rewrite length_map.
  apply Nat.ltb_lt in Hlt. rewrite Hlt. reflexivity.
Qed.

Lemma update_price_data_target symbol p ts :
  preserves (keeps TARGET_PRICES) (update_price_data symbol p ts).
Proof. unfold update_price_data, _update_volatility. frame_keeps TARGET_PRICES. Qed.

(** The first block of the handler for a symbol without a position. *)
Lemma new_price_block_flat ex symbol p ts s :
  open_positions (risk_manager s) !! symbol = None ->
  exists s1,
    (modify (set_previous_price symbol p);;
     update_price_data symbol p ts;;
     update_trailing_stop ex symbol p;;
     modify_rm (check_price_alerts symbol p);;
     partial_close_check symbol p) s = (Ok tt, s1)
    /\ TARGET_PRICES s1 = TARGET_PRICES s
    /\ open_positions (risk_manager s1) = open_positions (risk_manager s).
Proof.
  intros Hpos.
  set (sa := set_previous_price symbol p s).
  set (sb := snd (update_price_data symbol p ts sa)).
  assert (Eb : update_price_data symbol p ts sa = (Ok tt, sb))
    by (apply run_ok, update_price_data_ok).
  assert (Tb : TARGET_PRICES sb = TARGET_PRICES s)
    by (apply (update_price_data_target symbol p ts sa)).
  assert (Pb : open_positions (risk_manager sb) = open_positions (risk_manager s))
    by (apply (update_price_data_keeps_rm_part open_positions symbol p ts
                 (fun _ _ _ _ _ => eq_refl) sa)).
  set (sc := set_risk_manager (check_price_alerts symbol p (risk_manager sb)) sb).
  assert (Pc : open_positions (risk_manager sc) = open_positions (risk_manager s))
    by (unfold sc; simpl; rewrite check_price_alerts_positions; exact Pb).
  assert (Et : update_trailing_stop ex symbol p sb = (Ok tt, sb)).
  { unfold update_trailing_stop, mbind, py_bind, get. rewrite Pb, Hpos. reflexivity. }
  exists sc. split; [|split; [exact Tb | exact Pc]].
  unfold mbind at 1, py_bind at 1. cbn [modify]. fold sa.
  run_step Eb. run_step Et.
  unfold mbind at 1, py_bind at 1. unfold modify_rm at 1, modify at 1. fold sc.
  unfold partial_close_check, mbind, py_bind, get. rewrite Pc, Hpos. reflexivity.
Qed.

(** X9. A first message on a symbol that has no target yet and no position,
    when the exchange returns between 1 and 19 bars, leaves the symbol with
    a NaN target: the 20-bar mean of a shorter history is NaN and the
    handler stores it. *)
Theorem short_history_gives_nan_target ex msg s :
  msg_e msg = "aggTrade"%string ->
  mjoin (TARGET_PRICES s !! msg_s msg) = None ->
  open_positions (risk_manager s) !! msg_s msg = None ->
  (0 < length (klines ex (msg_s msg)) < 20)%nat ->
  nan_target (after_message ex msg s) (msg_s msg).
Proof.
  intros He HT Hpos Hk. unfold after_message, handle_socket_message, try_except.
  assert (Hb : exists s1,
    (s0 ← get;
     if match previous_prices s0 !! msg_s msg with
        | Some previous => negb (Qeq_bool previous (msg_p msg))
        | None => true
        end
     then modify (set_previous_price (msg_s msg) (msg_p msg));;
          update_price_data (msg_s msg) (msg_p msg) (msg_E msg);;
          update_trailing_stop ex (msg_s msg) (msg_p msg);;
          modify_rm (check_price_alerts (msg_s msg) (msg_p msg));;
          partial_close_check (msg_s msg) (msg_p msg)
     else mret tt) s = (Ok tt, s1)
    /\ TARGET_PRICES s1 = TARGET_PRICES s
    /\ open_positions (risk_manager s1) = open_positions (risk_manager s)).
  { unfold mbind at 1, py_bind at 1, get at 1. cbv beta iota.
    destruct (match previous_prices s !! msg_s msg with
              | Some previous => negb (Qeq_bool previous (msg_p msg))
              | None => true
              end).
    - apply new_price_block_flat, Hpos.
    - exists s. repeat split. }
  destruct Hb as (s1 & E1 & T1 & P1).
  assert (Hrun : exists s2, handle_body ex msg s = (Ok tt, s2)
                            /\ nan_target s2 (msg_s msg)).
  { unfold handle_body. rewrite He. change (String.eqb "aggTrade" "aggTrade") with true.
    cbv iota zeta.
    unfold mbind at 1, py_bind at 1, get at 1. cbv beta iota.
    unfold mbind at 1, py_bind at 1, get at 1 in E1. cbv beta iota in E1.
    unfold mbind at 1, py_bind at 1. rewrite E1. cbv beta iota.
    unfold mbind at 1, py_bind at 1, get at 1. cbv beta iota.
    set (s2 := set_target_price (msg_s msg) (Some (NpF NaN))
                 (add_sent [futures_klines (msg_s msg)] s1)).
    assert (E2 : (match TARGET_PRICES s1 !! msg_s msg with
                  | Some (Some _) => mret tt
                  | _ => t ← determine_target_price ex (msg_s msg);
                         modify (set_target_price (msg_s msg) t)
                  end) s1 = (Ok tt, s2)).
    { rewrite T1.
      destruct (TARGET_PRICES s !! msg_s msg) as [[t|]|]; [discriminate HT| |];
        unfold mbind, py_bind; rewrite (determine_target_price_short _ _ _ Hk);
        reflexivity. }
    unfold mbind at 1, py_bind at 1. rewrite E2. cbv beta iota.
    exists s2. split.
    - unfold mbind at 1, py_bind at 1, get at 1. cbv beta iota.
      assert (T2 : TARGET_PRICES s2 !! msg_s msg = Some (Some (NpF NaN)))
        by apply lookup_insert_eq.
      rewrite T2.
      change (target_reached (mjoin (Some (Some (NpF NaN)))) (msg_p msg)) with false.
      cbv iota. unfold liquidation_check, mbind, py_bind, get.
      change (open_positions (risk_manager s2)) with (open_positions (risk_manager s1)).
      rewrite P1, Hpos. reflexivity.
    - apply lookup_insert_eq. }
  destruct Hrun as (s2 & E & Hnan). rewrite E. exact Hnan.
Qed.

Lemma short_history_gives_nan_target_witness :
  nan_target
    (after_message Scenario.exchange_short_history (Scenario.tick 95) Scenario.fresh)
    "BTCUSDT".
Proof.
  apply (short_history_gives_nan_target Scenario.exchange_short_history
           (Scenario.tick 95) Scenario.fresh);
    [reflexivity | reflexivity | reflexivity | simpl; lia].
Defined.

(** ** The leverage change *)

Lemma bind_ext {A B} (m1 m2 : py A) (k1 k2 : A -> py B) s :
  m1 s = m2 s -> (forall a s', k1 a s' = k2 a s') -> (m1 ≫= k1) s = (m2 ≫= k2) s.
Proof.
  intros Hm Hk. unfold mbind, py_bind. rewrite Hm.
  destruct (m2 s) as [[a|e] s']; [apply Hk | reflexivity].
Qed.

Lemma open_position_leverage ok ex symbol side price s :
  open_position (with_leverage ok ex) symbol side price s
  = open_position ex symbol side price s.
Proof.
  unfold open_position, try_except.
  match goal with
  | |- match ?a with _ => _ end = match ?b with _ => _ end =>
      assert (E : a = b); [|rewrite E; reflexivity]
  end.
  apply bind_ext; [reflexivity|]. intros okm s1.
  destruct (negb okm); [reflexivity|].
  apply bind_ext; [rewrite !set_leverage_table; reflexivity|].
  intros ? s2. reflexivity.
Qed.

(** X10. Whether the exchange accepts or refuses the change of leverage
    makes no difference to the handler: [set_leverage] logs the failure and
    [open_position] goes on to the entry conditions and the orders, so the
    result, the globals and the requests sent are the same. *)
Theorem leverage_refusal_is_ignored ok ex msg s :
  handle_socket_message (with_leverage ok ex) msg s = handle_socket_message ex msg s.
Proof.
  unfold handle_socket_message, try_except.
  match goal with
  | |- match ?a with _ => _ end = match ?b with _ => _ end =>
      assert (E : a = b); [|rewrite E; reflexivity]
  end.
  unfold handle_body. destruct (String.eqb (msg_e msg) "aggTrade"); [|reflexivity].
  cbv zeta.
  apply bind_ext; [reflexivity|]. intros s0 s1.
  apply bind_ext; [reflexivity|]. intros ? s2.
  apply bind_ext; [reflexivity|]. intros s3 s4.
  apply bind_ext; [reflexivity|]. intros ? s5.
  apply bind_ext; [reflexivity|]. intros s6 s7.
  destruct (target_reached _ _); [|reflexivity].
  destruct (volatility_blocks _ _); [reflexivity|].
  apply bind_ext; [apply open_position_leverage | reflexivity].
Qed.

(** ** Price alerts *)

Lemma check_alert_flag p a :
  check_alert p a
  = with_triggered
      (triggered a
       || ((String.eqb (direction a) "above" && Qltb (alert_price a) p)
           || (String.eqb (direction a) "below" && Qltb p (alert_price a)))) a.
Proof.
  unfold check_alert, with_triggered. destruct a as [ap d m t]. simpl.
  destruct t; simpl; [reflexivity|].
  destruct ((String.eqb d "above" && Qltb ap p) || (String.eqb d "below" && Qltb p ap));
    reflexivity.
Qed.

Lemma run_alert_op_flag rm op symbol alerts i a :
  price_alerts rm !! symbol = Some alerts -> alerts !! i = Some a ->
  exists alerts', price_alerts (run_alert_op rm op) !! symbol = Some alerts'
    /\ alerts' !! i
       = Some (with_triggered
                 (triggered a || crosses symbol (alert_price a) (direction a) op) a).
Proof.
  intros Hs Hi.
  assert (Hsame : with_triggered (triggered a || false) a = a)
    by (destruct a as [ap d m t]; unfold with_triggered; simpl;
        rewrite orb_false_r; reflexivity).
  destruct op as [sym p d m | sym p]; simpl.
  - rewrite Hsame. unfold add_price_alert. simpl.
    destruct (decide (sym = symbol)) as [->|Hne].
    + rewrite lookup_insert_eq, Hs. simpl. eexists; split; [reflexivity|].
      rewrite lookup_app_l; [exact Hi|]. eapply lookup_lt_Some; exact Hi.
    + rewrite lookup_insert_ne by exact Hne. eauto.
  - unfold check_price_alerts.
    destruct (String.eqb_spec sym symbol) as [->|Hne].
    + rewrite Hs. simpl. rewrite lookup_insert_eq. eexists; split; [reflexivity|].
      change (map (check_alert p) alerts) with (check_alert p <$> alerts).
      rewrite list_lookup_fmap, Hi. simpl. f_equal. apply check_alert_flag.
    + simpl. rewrite Hsame.
      destruct (price_alerts rm !! sym); simpl; [|eauto].
      rewrite lookup_insert_ne by exact Hne. eauto.
Qed.

Lemma run_alert_ops_flag ops rm symbol alerts i a :
  price_alerts rm !! symbol = Some alerts -> alerts !! i = Some a ->
  exists alerts', price_alerts (run_alert_ops ops rm) !! symbol = Some alerts'
    /\ alerts' !! i
       = Some (with_triggered
                 (triggered a
                  || existsb (crosses symbol (alert_price a) (direction a)) ops) a).
Proof.
  revert rm alerts a. induction ops as [|op ops IH]; intros rm alerts a Hs Hi.
  - simpl. exists alerts. split; [exact Hs|]. rewrite Hi. f_equal.
    destruct a as [ap d m t]. unfold with_triggered. simpl.
    rewrite orb_false_r. reflexivity.
  - destruct (run_alert_op_flag rm op symbol alerts i a Hs Hi) as (alerts1 & Hs1 & Hi1).
    destruct (IH _ _ _ Hs1 Hi1) as (alerts2 & Hs2 & Hi2).
    exists alerts2. split; [exact Hs2|]. rewrite Hi2. f_equal.
    unfold with_triggered. simpl. rewrite orb_assoc. reflexivity.
Qed.

(** X11. An alert stays at its place in the list of its symbol through
    every later sequence of [add_price_alert] and [check_price_alerts]
    calls, and its flag is up exactly when one of the checks of its symbol
    came at a price strictly above its level (direction ['above']) or
    strictly below it (['below']): it fires on the first crossing and is
    never reset or removed. *)
Theorem alert_fires_once_crossed (ops : list alert_op) (rm : RiskManager)
    (symbol : string) (level : Q) (direction : string) (msg : alert_message) :
  exists alerts,
    price_alerts (run_alert_ops ops (add_price_alert symbol level direction msg rm))
      !! symbol = Some alerts
    /\ alerts !! length (default [] (price_alerts rm !! symbol))
       = Some {| alert_price := level; direction := direction; message := msg;
                 triggered := existsb (crosses symbol level direction) ops |}.
Proof.
  eapply (run_alert_ops_flag ops _ symbol _ _
            {| alert_price := level; direction := direction; message := msg;
               triggered := false |}).
  - unfold add_price_alert. simpl. apply lookup_insert_eq.
  - rewrite lookup_app_r by lia. rewrite Nat.sub_diag. reflexivity.
Qed.

(** ** The size of an entry *)






(** ** Replacing the stop order *)

Lemma cancel_stop_orders_run ex symbol orders s :
  (forall orderId, cancel_ok ex symbol orderId = true) ->
  cancel_stop_orders ex symbol orders s
  = (Ok tt, add_sent (stop_cancels symbol orders) s).
Proof.
  intros Hok. revert s. induction orders as [|[type orderId] rest IH]; intros s.
  - simpl. rewrite add_sent_nil. reflexivity.
  - cbn [cancel_stop_orders]. unfold stop_cancels. cbn [List.filter fst snd].
    destruct (String.eqb type "STOP_MARKET").
    + unfold mbind at 1, py_bind at 1. unfold answer_ok.
      unfold mbind at 1, py_bind at 1. unfold send, modify. rewrite Hok.
      cbn [mret py_ret]. rewrite IH.
      f_equal. unfold add_sent, stop_cancels. cbn [sent previous_prices TARGET_PRICES
        risk_manager price_analyzer map]. rewrite <- app_assoc. reflexivity.
    + unfold mbind at 1, py_bind at 1. cbn [mret py_ret]. apply IH.
Qed.

(** X13. Replacing the stop order of a position, when the live orders are
    listed and every cancellation is accepted: the live stop orders are all
    cancelled first, then the new stop is ordered; if the exchange refuses
    it, the failure is only logged, the call returns normally and the
    registry keeps the old stop price, so the position is left with no stop
    order at the exchange. *)
Theorem stop_replacement ex symbol new_stop_price s position orders :
  open_positions (risk_manager s) !! symbol = Some position ->
  open_orders ex symbol = Some orders ->
  (forall orderId, cancel_ok ex symbol orderId = true) ->
  exists s',
    update_stop_loss_order ex symbol new_stop_price s = (Ok tt, s')
    /\ sent s' = sent s ++ [futures_get_open_orders symbol]
                 ++ stop_cancels symbol orders
                 ++ [futures_create_order
                       (replacement_stop symbol position new_stop_price)]
    /\ open_positions (risk_manager s') !! symbol
       = Some (if order_ok ex (replacement_stop symbol position new_stop_price)
               then set_stop_loss new_stop_price position else position)
    /\ trailing_stops (risk_manager s') = trailing_stops (risk_manager s).
Proof.
  intros Hpos Horders Hok.
  unfold update_stop_loss_order, try_except.
  unfold mbind at 1, py_bind at 1, get at 1. cbv beta iota. rewrite Hpos.
  run_step (answer_run (futures_get_open_orders symbol) (open_orders ex symbol) s).
  rewrite Horders. cbv beta iota.
  run_step (cancel_stop_orders_run ex symbol orders
              (add_sent [futures_get_open_orders symbol] s) Hok).
  fold (replacement_stop symbol position new_stop_price).
  unfold mbind at 1, py_bind at 1. rewrite create_order_run.
  rewrite !add_sent_add_sent.
  destruct (order_ok ex (replacement_stop symbol position new_stop_price)).
  - eexists. split; [reflexivity|]. cbn [sent add_sent modify_rm modify snd fst].
    split; [reflexivity|].
    split; [|reflexivity].
    cbn [risk_manager set_risk_manager open_positions set_open_positions add_sent].
    rewrite lookup_alter_eq, Hpos. reflexivity.
  - eexists. split; [reflexivity|]. cbn [sent add_sent snd fst].
    split; [reflexivity|].
    split; [exact Hpos | reflexivity].
Qed.

Lemma stop_replacement_witness :
  exists s',
    update_stop_loss_order Scenario.exchange_refusing_stop "BTCUSDT" 105 Scenario.holding
    = (Ok tt, s')
    /\ open_positions (risk_manager s') !! "BTCUSDT"%string = Some Scenario.long_position.
Proof.
  destruct (stop_replacement Scenario.exchange_refusing_stop "BTCUSDT" 105
              Scenario.holding Scenario.long_position
              [("STOP_MARKET"%string, 7%Z)] eq_refl eq_refl (fun _ => eq_refl))
    as (s' & Hrun & _ & Hpos & _).
  exists s'. split; [exact Hrun | exact Hpos].
Defined.

(** ** A trade at the price of the previous one *)

Lemma try_at (R : state -> state -> Prop) {A} (m h : py A) s :
  (forall a b c, R a b -> R b c -> R a c) ->
  R s (snd (m s)) -> preserves R h -> R s (snd (try_except m h s)).
Proof.
  intros Htrans Hm Hh. unfold try_except.
  destruct (m s) as [[a|e] s1]; simpl in Hm |- *; [exact Hm|].
  eapply Htrans; [exact Hm | apply Hh].
Qed.

Lemma after_new_price_block_keeps_record ex symbol price :
  preserves (keeps price_record)
    (s ← get;
     (match TARGET_PRICES s !! symbol with
      | Some (Some _) => mret tt
      | _ => t ← determine_target_price ex symbol;
             modify (set_target_price symbol t)
      end);;
     s ← get;
     (if target_reached (mjoin (TARGET_PRICES s !! symbol)) price then
        if volatility_blocks s symbol then mret tt
        else open_position ex symbol "long" price;; liquidation_check symbol price
      else liquidation_check symbol price)).
Proof.
  unfold determine_target_price, get_futures_klines, liquidation_check. cbv zeta.
  repeat first
    [ apply open_position_keeps; reflexivity
    | frame_step (keeps_refl price_record) (keeps_trans price_record)
        ltac:(solve [intros ?; reflexivity]) ].
Qed.

(** X15. A trade reported at the price of the previous trade of its symbol
    is not recorded: the handler leaves the last prices, the price history
    and volatility, the trailing stops and the alerts exactly as they were.
    (The target test and [open_position] still run.) *)
Theorem repeated_price_is_not_recorded ex msg s previous :
  previous_prices s !! msg_s msg = Some previous ->
  Qeq_bool previous (msg_p msg) = true ->
  price_record (after_message ex msg s) = price_record s.
Proof.
  intros Hprev Heq. unfold after_message, handle_socket_message.
  change (keeps price_record s (snd (try_except (handle_body ex msg) (mret tt) s))).
  apply try_at;
    [apply keeps_trans | | apply (preserves_ret _ (keeps_refl price_record))].
  unfold handle_body. destruct (String.eqb (msg_e msg) "aggTrade"); [|reflexivity].
  cbv zeta. unfold mbind at 1, py_bind at 1, get at 1. cbv beta iota.
  rewrite Hprev, Heq. cbn [negb].
  apply bind_at; [apply keeps_trans | reflexivity |].
  intros ?. apply after_new_price_block_keeps_record.
Qed.

Lemma repeated_price_is_not_recorded_witness :
  price_record (after_message Scenario.exchange (Scenario.tick 100) Scenario.trailed)
  = price_record Scenario.trailed.
Proof.
  apply (repeated_price_is_not_recorded Scenario.exchange (Scenario.tick 100)
           Scenario.trailed 100); reflexivity.
Defined.

(** ** What a trade at a new price records *)

Lemma bind_from (R : state -> state -> Prop) {A B} (m : py A) (k : A -> py B) s0 s :
  (forall a b c, R a b -> R b c -> R a c) ->
  R s0 (snd (m s)) -> (forall a, preserves R (k a)) -> R s0 (snd ((m ≫= k) s)).
Proof.
  intros Htrans Hm Hk. unfold mbind, py_bind.
  destruct (m s) as [[a|e] s1] eqn:E; simpl in Hm |- *; [|exact Hm].
  eapply Htrans; [exact Hm | apply Hk].
Qed.

Lemma try_from (R : state -> state -> Prop) {A} (m h : py A) s0 s :
  (forall a b c, R a b -> R b c -> R a c) ->
  R s0 (snd (m s)) -> preserves R h -> R s0 (snd (try_except m h s)).
Proof.
  intros Htrans Hm Hh. unfold try_except.
  destruct (m s) as [[a|e] s1]; simpl in Hm |- *; [exact Hm|].
  eapply Htrans; [exact Hm | apply Hh].
Qed.

Lemma after_update_price_data_keeps_analyzer ex symbol price :
  preserves (keeps price_analyzer)
    (update_trailing_stop ex symbol price;;
     modify_rm (check_price_alerts symbol price);;
     partial_close_check symbol price).
Proof.
  unfold partial_close_check. cbn [partial_close_loop PARTIAL_CLOSE_LEVELS].
  unfold partial_close_position.
  repeat first
    [ apply update_trailing_stop_keeps; reflexivity
    | frame_step (keeps_refl price_analyzer) (keeps_trans price_analyzer)
        ltac:(solve [intros ?; reflexivity]) ].
Qed.

(** After a trade at a new price, whatever else the handler does and
    whatever the exchange answers, the history of the symbol is the one
    [update_price_data] left: the sample appended, the last 1000 kept. *)
Lemma handler_records_new_price ex msg s :
  msg_e msg = "aggTrade"%string ->
  price_is_new s (msg_s msg) (msg_p msg) = true ->
  price_history (price_analyzer (after_message ex msg s)) !! msg_s msg
  = Some (recorded (msg_s msg) (msg_p msg) (msg_E msg) s).
Proof.
  intros He Hnew. unfold after_message, handle_socket_message.
  set (sa := set_previous_price (msg_s msg) (msg_p msg) s).
  set (sb := snd (update_price_data (msg_s msg) (msg_p msg) (msg_E msg) sa)).
  assert (Hb : price_history (price_analyzer sb) !! msg_s msg
               = Some (recorded (msg_s msg) (msg_p msg) (msg_E msg) s))
    by (apply (update_price_data_effect (msg_s msg) (msg_p msg) (msg_E msg) sa)).
  assert (K : keeps price_analyzer sb
                (snd (try_except (handle_body ex msg) (mret tt) s))).
  { apply try_from;
      [apply keeps_trans | | apply (preserves_ret _ (keeps_refl price_analyzer))].
    unfold handle_body. rewrite He. change (String.eqb "aggTrade" "aggTrade") with true.
    cbv iota zeta. unfold mbind at 1, py_bind at 1, get at 1. cbv beta iota.
    unfold price_is_new in Hnew. rewrite Hnew.
    apply bind_from; [apply keeps_trans | |].
    - unfold mbind at 1, py_bind at 1. cbn [modify]. fold sa.
      apply bind_from; [apply keeps_trans | reflexivity |].
      intros ?. apply after_update_price_data_keeps_analyzer.
    - intros ?. eapply preserves_weaken;
        [|apply after_new_price_block_keeps_record].
      intros x y E. unfold keeps, price_record in *. congruence. }
  unfold keeps in K. rewrite K. exact Hb.
Qed.

(** A trade at a new price on a full history: the 1000 samples become 1001
    and are trimmed to the last 1000, the new one at the end. *)
Lemma handler_caps_the_histories_witness :
  histories_capped Scenario.full_history
  /\ histories_capped
       (after_messages [(Scenario.exchange, Scenario.tick 110)] Scenario.full_history)
  /\ exists history,
       price_history
         (price_analyzer
            (after_messages [(Scenario.exchange, Scenario.tick 110)]
               Scenario.full_history)) !! "BTCUSDT"%string = Some history
       /\ length history = 1000%nat
       /\ last history = Some {| price := 110; timestamp := 0 |}.
Proof.
  assert (H : histories_capped Scenario.full_history).
  { intros symbol history Hl. unfold Scenario.full_history in Hl.
    cbn [price_analyzer price_history] in Hl.
    apply lookup_singleton_Some in Hl. destruct Hl as [_ <-].
    rewrite repeat_length. apply Nat.le_refl. }
  split; [exact H|].
  split; [apply (handler_caps_the_histories _ _ H)|].
  exists (recorded "BTCUSDT" 110 0 Scenario.full_history).
  split; [|split].
  - apply (handler_records_new_price Scenario.exchange (Scenario.tick 110)
             Scenario.full_history); reflexivity.
  - vm_compute. reflexivity.
  - apply recorded_last.
Defined.

(** ** Trade statistics *)

Lemma record_trades_counts (pnls : list Q) (st : trade_stats) :
  total_trades (record_trades pnls st) = (total_trades st + length pnls)%nat
  /\ profitable_trades (record_trades pnls st)
     = (profitable_trades st + length (List.filter (Qltb 0) pnls))%nat.
Proof.
  revert st. induction pnls as [|pnl pnls IH]; intros st.
  - simpl. split; lia.
  - destruct (IH (update_trade_stats pnl st)) as [Ht Hp].
    change (record_trades (pnl :: pnls) st)
      with (record_trades pnls (update_trade_stats pnl st)).
    rewrite Ht, Hp. cbn [update_trade_stats total_trades profitable_trades
                         List.filter length].
    destruct (Qltb 0 pnl); simpl; split; lia.
Qed.

(** X1. After any sequence of [update_trade_stats] calls from the initial
    counters, [total_trades] is the number of calls, [profitable_trades] the
    number of calls with a strictly positive pnl, and so never more than
    [total_trades]. *)
Theorem trade_stats_count (pnls : list Q) :
  total_trades (record_trades pnls no_trades) = length pnls
  /\ profitable_trades (record_trades pnls no_trades)
     = length (List.filter (Qltb 0) pnls)
  /\ (profitable_trades (record_trades pnls no_trades)
      <= total_trades (record_trades pnls no_trades))%nat.
Proof.
  destruct (record_trades_counts pnls no_trades) as [Ht Hp].
  simpl in Ht, Hp. rewrite Ht, Hp. repeat split.
  apply List.filter_length_le.
Qed.

(** ** Liquidation warning *)

Lemma Qdiv_lt_iff (a b c : Q) : 0 < c -> (a / c < b <-> a < b * c).
Proof.
  intros Hc. rewrite <- (Qmult_lt_r (a / c) b c Hc).
  assert (H : a / c * c == a) by (field; intros E; rewrite E in Hc; discriminate).
  rewrite H. reflexivity.
Qed.

(** X2. For a long position with a positive entry price and a positive
    trade price, the liquidation test of the handler holds exactly when the
    price is strictly between 5/9 and 5/6 of the entry price; for any other
    side, exactly between 10/9 and 5/3 of it. *)
Theorem liquidation_warning_band (pos : position) (p : Q) :
  0 < entry_price pos -> 0 < p ->
  exists b, near_liquidation pos p = Ok b
    /\ (b = true <->
        if String.eqb (side pos) "long"
        then (5 # 9) * entry_price pos < p < (5 # 6) * entry_price pos
        else (10 # 9) * entry_price pos < p < (5 # 3) * entry_price pos).
Proof.
  intros He Hp. unfold near_liquidation, Qdiv_py, calculate_liquidation_price.
  assert (Hz : Qeq_bool p 0 = false).
  { destruct (Qeq_bool p 0) eqn:E; [|reflexivity].
    apply Qeq_bool_iff in E. rewrite E in Hp. discriminate. }
  rewrite Hz. cbn [mbind pyres_bind mret pyres_ret].
  eexists. split; [reflexivity|].
  rewrite Qltb_true, (Qdiv_lt_iff _ _ p Hp), Qabs_Qlt_condition.
  unfold LEVERAGE.
  assert (E1 : 1 - 1 / 3 == 2 # 3) by reflexivity.
  assert (E2 : 1 + 1 / 3 == 4 # 3) by reflexivity.
  destruct (String.eqb (side pos) "long"); split; intros [H1 H2];
    rewrite ?E1, ?E2 in *; split; qlra.
Qed.

(** The band for the long position entered at 100: 60 is inside. *)
Lemma liquidation_warning_band_witness :
  exists b, near_liquidation Scenario.long_position 60 = Ok b
    /\ (b = true <->
        (5 # 9) * entry_price Scenario.long_position < 60
          < (5 # 6) * entry_price Scenario.long_position).
Proof.
  apply (liquidation_warning_band Scenario.long_position 60); reflexivity.
Defined.

(** ** The price-target alert of [BinanceTrader] *)

Lemma check_price_targets_from targets calls (logged : nat) (flag : bool) :
  let '(n, flag') :=
    foldl (fun '(logged, flag) '(symbol, price) =>
             match check_price_target targets symbol price flag with
             | Ok (true, flag') => (S logged, flag')
             | Ok (false, flag') => (logged, flag')
             | Raise _ => (logged, flag)
             end) (logged, flag) calls in
  (n + unset flag' <= logged + unset flag + length (List.filter (resets targets) calls))%nat.
Proof.
  revert logged flag. induction calls as [|[symbol price] calls IH]; intros logged flag.
  - simpl. lia.
  - cbn [foldl List.filter].
    assert (Hr : resets targets (symbol, price)
                 = match targets !! symbol with
                   | Some (Some t) =>
                       negb (py_le t (PyF price))
                       && py_lt (PyF price) (py_mul t (PyF (999 # 1000)))
                   | _ => false
                   end) by reflexivity.
    rewrite Hr. clear Hr. unfold check_price_target at 2.
    destruct (targets !! symbol) as [[t|]|].
    + destruct (py_le t (PyF price)); cbn [negb andb].
      * destruct flag; cbn [negb].
        -- specialize (IH logged true).
           destruct (foldl _ (logged, true) calls) as [n fl]. simpl in *. lia.
        -- specialize (IH (S logged) true).
           destruct (foldl _ (S logged, true) calls) as [n fl]. simpl in *. lia.
      * destruct (py_lt (PyF price) (py_mul t (PyF (999 # 1000)))).
        -- specialize (IH logged false).
           destruct (foldl _ (logged, false) calls) as [n fl].
           destruct flag; simpl in *; lia.
        -- specialize (IH logged flag).
           destruct (foldl _ (logged, flag) calls) as [n fl]. simpl in *. lia.
    + specialize (IH logged flag).
      destruct (foldl _ (logged, flag) calls) as [n fl]. simpl in *. lia.
    + specialize (IH logged flag).
      destruct (foldl _ (logged, flag) calls) as [n fl]. simpl in *. lia.
Qed.

(** X3. Over any sequence of [check_price_target] calls, for whatever symbols
    and targets, the number of alerts logged is at most one more than the
    number of calls whose price is under 99.9 percent of the target: after an
    alert, no further alert is logged until such a price has reset the flag. *)
Theorem price_target_alerts_bounded targets calls (flag : bool) :
  (fst (check_price_targets targets calls flag)
   <= 1 + length (List.filter (resets targets) calls))%nat.
Proof.
  unfold check_price_targets.
  pose proof (check_price_targets_from targets calls 0 flag) as H.
  destruct (foldl _ (0%nat, flag) calls) as [n fl]. simpl.
  destruct flag, fl; simpl in H; lia.
Qed.


End EngineFacts.

Module SocketFacts.
Import RealTradingWebsocket.

(** ** The entries of [Real_Trading_Websocket.py] *)

Lemma open_position_market_orders c symbol side quantity :
  market_orders (open_position c symbol side quantity)
  = [market_order symbol side quantity].
Proof.
  unfold open_position, market_orders. cbn [omap list_omap market_order RealTrading.o_type].
  change (String.eqb "MARKET" "MARKET") with true. cbv iota. f_equal.
  destruct (order_ok c _); [|reflexivity].
  cbn [omap list_omap].
  destruct (symbol_ticker c symbol) as [current_price|]; [|reflexivity].
  destruct (RealTrading.round_price _ _) as [stop_loss|]; [|reflexivity].
  destruct (RealTrading.round_price _ _) as [take_profit|]; [|reflexivity].
  destruct (order_ok c _); reflexivity.
Qed.

(** X14. The script of [Real_Trading_Websocket.py] keeps no record of what
    it has bought: every trade message at or under [TARGET_PRICE] sends one
    market order to buy [MAX_POSITION] of its symbol, whatever the exchange
    answered before, and no other message sends one. The market orders of a
    sequence of messages are, in order, one for each such message. *)
Theorem one_entry_for_every_trade_at_target
    (messages : list (Client * RealTrading.socket_message)) :
  market_orders (handle_messages messages)
  = map (fun m => market_order (RealTrading.msg_s m.2) "long" MAX_POSITION)
        (List.filter (fun m => at_target m.2) messages).
Proof.
  induction messages as [|[c msg] rest IH]; [reflexivity|].
  unfold handle_messages. cbn [flat_map]. fold (handle_messages rest).
  unfold market_orders. rewrite omap_app. fold (market_orders (handle_messages rest)).
  fold (market_orders (handle_socket_message c msg)).
  rewrite IH. cbn [List.filter snd]. unfold at_target, handle_socket_message.
  destruct (String.eqb (RealTrading.msg_e msg) "aggTrade"); [|reflexivity].
  destruct (Qle_bool (RealTrading.msg_p msg) TARGET_PRICE); [|reflexivity].
  rewrite open_position_market_orders. reflexivity.
Qed.

End SocketFacts.
